(** * Nimbus-DDNS: the Cloudflare client and the configuration manager

    A shallow embedding of [lib/cloudflare.js] (class [CloudflareAPI]) and
    [lib/config.js] (class [ConfigManager]).

    - JavaScript values are the JSON fragment the program handles, plus
      [undefined] and the members every object inherits from
      [Object.prototype]: [jsval].  Objects used as maps are
      [gmap string jsval], their own properties, so the order of keys is not
      observed.
    - A thrown value is an error object with a name and a message: [exn].
    - A method is a function in a state-and-exception monad [M S]; an
      [await]ed rejection is an exception of that monad.
    - The collaborators the tests mock ([axios], [fs], [JSON]) are type
      classes: the theorems hold for every instance. *)

From stdpp Require Import gmap strings list fin_maps pretty.
From Stdlib Require Import ZArith Ascii.

Set Warnings "-register-all".
Set Default Proof Using "Type".

(** ** JavaScript values *)

Inductive jsval : Type :=
| JUndefined
| JNull
| JBool (b : bool)
| JNum (n : Z)
| JStr (s : string)
| JArr (items : list jsval)
| JObj (fields : gmap string jsval)
| JBuiltin (member : string).
(** [JBuiltin name] is [Object.prototype[name]] for a name that
    [Object.prototype] has: a built-in function, and for ["__proto__"] what
    its getter returns, [Object.prototype] itself. *)

(** What [throw] carries and what a rejected promise holds. *)
Record exn : Type := JsError { err_name : string; err_message : string }.

(** [new Error(msg)] *)
Definition Error (msg : string) : exn := JsError "Error" msg.

(** The error the engine raises on a property read of [undefined] or [null]
    and on a call of something that is no function (messages as Node prints
    them). *)
Definition TypeError (msg : string) : exn := JsError "TypeError" msg.

Definition completion (A : Type) : Type := exn + A.

(** Sequencing of expressions that may throw. *)
#[global] Instance completion_ret : MRet completion := λ A, inr.

#[global] Instance completion_bind : MBind completion := λ A B k c,
  match c with
  | inl e => inl e
  | inr a => k a
  end.

(** ToBoolean *)
Definition truthy (v : jsval) : bool :=
  match v with
  | JUndefined | JNull => false
  | JBool b => b
  | JNum n => negb (n =? 0)%Z
  | JStr "" => false
  | JStr _ => true
  | JArr _ | JObj _ | JBuiltin _ => true
  end.

Definition nullish (v : jsval) : bool :=
  match v with
  | JUndefined | JNull => true
  | _ => false
  end.

Definition type_name (v : jsval) : string :=
  match v with
  | JNull => "null"
  | _ => "undefined"
  end.

Definition cannot_read (v : jsval) (k : string) : exn :=
  TypeError ("Cannot read properties of " +:+ type_name v +:+
             " (reading '" +:+ k +:+ "')").

(** [v.k] for a key [k] that names no built-in member ([success], [result],
    [id], ...): the own property of an object, [undefined] on any other
    value that can hold properties, a [TypeError] on [undefined] and
    [null]. *)
Definition get_prop (v : jsval) (k : string) : completion jsval :=
  match v with
  | JUndefined | JNull => inl (cannot_read v k)
  | JObj m => inr (default JUndefined (m !! k))
  | _ => inr JUndefined
  end.

Fixpoint char_at (s : string) (i : nat) : jsval :=
  match s, i with
  | "", _ => JUndefined
  | String a _, O => JStr (String a "")
  | String _ r, S j => char_at r j
  end.

(** [v[i]] for an array index [i]. *)
Definition get_index (v : jsval) (i : nat) : completion jsval :=
  match v with
  | JUndefined | JNull => inl (cannot_read v (pretty i))
  | JArr l => inr (default JUndefined (l !! i))
  | JStr s => inr (char_at s i)
  | JObj m => inr (default JUndefined (m !! pretty i))
  | _ => inr JUndefined
  end.

(** [v?.k] *)
Definition get_prop_opt (v : jsval) (k : string) : completion jsval :=
  if nullish v then inr JUndefined else get_prop v k.

(** [a || b] on values *)
Definition js_or (a b : jsval) : jsval := if truthy a then a else b.

(** The ASCII members of ECMAScript's WhiteSpace and LineTerminator: TAB, LF,
    VT, FF, CR and SP.  Strings are byte strings here; the code points beyond
    ASCII that [trim] also strips are outside the model. *)
Definition is_white_space (a : ascii) : bool :=
  match a with
  | "009" | "010" | "011" | "012" | "013" | " " => true
  | _ => false
  end%char.

Fixpoint trimStart (s : string) : string :=
  match s with
  | "" => ""
  | String a r => if is_white_space a then trimStart r else s
  end.

Fixpoint trimEnd (s : string) : string :=
  match s with
  | "" => ""
  | String a r =>
      match trimEnd r with
      | "" => if is_white_space a then "" else String a ""
      | r' => String a r'
      end
  end.

(** [String.prototype.trim] *)
Definition trim (s : string) : string := trimEnd (trimStart s).

(** [v.trim()]: only a string has the method. *)
Definition call_trim (expr : string) (v : jsval) : completion jsval :=
  match v with
  | JUndefined | JNull => inl (cannot_read v "trim")
  | JStr s => inr (JStr (trim s))
  | _ => inl (TypeError (expr +:+ ".trim is not a function"))
  end.

(** [hay.includes(needle)] *)
Fixpoint includes (needle hay : string) : bool :=
  String.prefix needle hay ||
  match hay with
  | "" => false
  | String _ r => includes needle r
  end.

(** ** Log entries and the monad of methods *)

(** One call of [logger.<level>(message)]. *)
Record log_entry : Type := Log { log_level : string; log_message : string }.

Definition M (S A : Type) : Type := S → S * completion A.

#[global] Instance M_ret {S} : MRet (M S) := λ A a s, (s, inr a).

#[global] Instance M_bind {S} : MBind (M S) := λ A B k m s,
  match m s with
  | (s', inr a) => k a s'
  | (s', inl e) => (s', inl e)
  end.

Definition throw {S A} (e : exn) : M S A := λ s, (s, inl e).

(** [try { m } catch (e) { h e }] *)
Definition try_catch {S A} (m : M S A) (h : exn → M S A) : M S A :=
  λ s, match m s with
       | (s', inl e) => h e s'
       | r => r
       end.

(** A synchronous expression that may throw. *)
Definition lift {S A} (c : completion A) : M S A := λ s, (s, c).

(** ** The Cloudflare client ([lib/cloudflare.js]) *)

Module Cloudflare.

(** The calls the client makes through axios. *)
Inductive request : Type :=
| AxiosGet (url : string)                 (* axios.get(url) *)
| ApiGet (path : string) (params : jsval) (* this.api.get(path, {params}) *)
| ApiPut (path : string) (body : jsval).  (* this.api.put(path, body) *)

(** What the client does to the world, in order. *)
Inductive event : Type :=
| Logged (entry : log_entry)
| Called (r : request).

(** The part of an axios response the client reads. *)
Record response : Type := Response { data : jsval }.

(** The network: a call resolves with a response or rejects (axios rejects
    on a transport error and on a status outside 2xx).  The outcome may
    depend on everything the client did before. *)
Class Axios : Type := axios : list event → request → completion response.

Definition trace : Type := list event.

Section Client.
Context {net : Axios}.

Definition http_entry (msg : string) : event := Logged (Log "http" msg).

(** [this.logger.http(msg)] *)
Definition logger_http (msg : string) : M trace () :=
  λ tr, (tr ++ [http_entry msg], inr ()).

(** [await] of one axios call. *)
Definition await_call (r : request) : M trace response :=
  λ tr, (tr ++ [Called r], axios tr r).

Record CloudflareAPI : Type := {
  apiKey : string;
  email : string;
  domainName : string;
}.

Definition primary_url : string := "https://ipv4.icanhazip.com".
Definition secondary_url : string := "https://api.ipify.org".

Definition getPublicIP (this : CloudflareAPI) : M trace jsval :=
  logger_http "GET: Fetching public IP address...";;
  response ← try_catch (await_call (AxiosGet primary_url))
                        (λ _, await_call (AxiosGet secondary_url));
  lift (call_trim "response.data" (data response)).

(** [this.api.get("/zones", { params: { name: this.domainName } })] *)
Definition zones_request (this : CloudflareAPI) : request :=
  ApiGet "/zones" (JObj {[ "name" := JStr (domainName this) ]}).

Definition getZoneId (this : CloudflareAPI) : M trace jsval :=
  logger_http "GET: Fetching Zone ID...";;
  response ← await_call (zones_request this);
  success ← lift (get_prop (data response) "success");
  if negb (truthy success) then throw (Error "Failed to fetch Zone ID") else
  result ← lift (get_prop (data response) "result");
  zone ← lift (get_index result 0);
  lift (get_prop zone "id").

(** [this.api.get(`/zones/${zoneId}/dns_records`, { params: { type: "A",
    name: `${subdomain}.${this.domainName}` } })] *)
Definition records_request (this : CloudflareAPI) (zoneId subdomain : string)
  : request :=
  ApiGet ("/zones/" +:+ zoneId +:+ "/dns_records")
    (JObj (<[ "type" := JStr "A" ]>
            {[ "name" := JStr (subdomain +:+ "." +:+ domainName this) ]})).

Definition getRecordId (this : CloudflareAPI) (zoneId subdomain : string)
  : M trace jsval :=
  logger_http "GET: Fetching Record ID...";;
  response ← await_call (records_request this zoneId subdomain);
  success ← lift (get_prop (data response) "success");
  if negb (truthy success) then throw (Error "Failed to fetch Record ID") else
  result ← lift (get_prop (data response) "result");
  record ← lift (get_index result 0);
  id ← lift (get_prop_opt record "id");
  mret (js_or id JNull).

(** The body of the PUT request. *)
Definition record_update (this : CloudflareAPI) (subdomain publicIP : string)
  : gmap string jsval :=
  <[ "type" := JStr "A" ]>
  (<[ "name" := JStr (subdomain +:+ "." +:+ domainName this) ]>
  (<[ "content" := JStr publicIP ]>
  (<[ "ttl" := JNum 1800 ]>
  (<[ "proxied" := JBool false ]> ∅)))).

(** [this.api.put(`/zones/${zoneId}/dns_records/${recordId}`, {...})] *)
Definition update_request (this : CloudflareAPI)
    (zoneId recordId subdomain publicIP : string) : request :=
  ApiPut ("/zones/" +:+ zoneId +:+ "/dns_records/" +:+ recordId)
    (JObj (record_update this subdomain publicIP)).

Definition updateDNSRecord (this : CloudflareAPI)
    (zoneId recordId subdomain publicIP : string) : M trace jsval :=
  logger_http ("PUT: Updating DNS record for " +:+ subdomain +:+
               " to IP: " +:+ publicIP);;
  response ← await_call (update_request this zoneId recordId subdomain publicIP);
  success ← lift (get_prop (data response) "success");
  if negb (truthy success) then throw (Error "Failed to update DNS record") else
  logger_http "DNS record updated successfully.";;
  mret (data response).

End Client.

(** The requests of a trace, in order. *)
Definition calls (tr : trace) : list request :=
  omap (λ ev, match ev with Called r => Some r | Logged _ => None end) tr.

(** What the provider's payload says: [success] read as the code reads it,
    and the list under [result]. *)
Definition reports_success (d : jsval) : Prop :=
  ∃ s, get_prop d "success" = inr s ∧ truthy s = true.

Definition reports_failure (d : jsval) : Prop :=
  ∃ s, get_prop d "success" = inr s ∧ truthy s = false.

Definition result_is (d : jsval) (l : list jsval) : Prop :=
  get_prop d "result" = inr (JArr l).

(** A scripted network, as the tests' mocks are: the n-th call gets the n-th
    outcome, and a call past the script is rejected. *)
Definition mock (script : list (completion response)) : Axios :=
  λ tr _, default (inl (Error "Network error")) (script !! length (calls tr)).

Definition resolved (d : jsval) : completion response := inr (Response d).

Definition rejected (msg : string) : completion response := inl (Error msg).

(** [{ success, result }] *)
Definition payload (success : bool) (result : list jsval) : jsval :=
  JObj (<[ "success" := JBool success ]> {[ "result" := JArr result ]}).

Definition example_client : CloudflareAPI :=
  {| apiKey := "apiKey"; email := "email"; domainName := "example.com" |}.

End Cloudflare.

(** ** The configuration manager ([lib/config.js]) *)

Module Config.

Inductive fs_op : Type :=
| WriteFile (path content : string)  (* fs.promises.writeFile(path, content, "utf8") *)
| Rename (oldPath newPath : string). (* fs.promises.rename(oldPath, newPath) *)

(** A failed file operation: the error it rejects with and, for a write,
    what it left at its target ([None]: the target is as before). *)
Record fs_failure : Type := {
  fail_error : exn;
  fail_partial : option string;
}.

(** The file system's faults: whether an operation fails on the files as
    they are. *)
Class Fs : Type := fs_fault : gmap string string → fs_op → option fs_failure.

(** [JSON.stringify(doc, null, 2)] and [JSON.parse] on documents (JSON
    objects; [parse] throws its SyntaxError on anything else). *)
Class Json : Type := {
  JSON_stringify : gmap string jsval → string;
  JSON_parse : string → completion (gmap string jsval);
}.

(** Outside the object: the files by path, and what was logged. *)
Record world : Type := World {
  files : gmap string string;
  logged : list log_entry;
}.

Record ConfigManager : Type := {
  configPath : string;
  config : gmap string jsval;
}.

Record state : Type := State {
  this : ConfigManager;
  env : world;
}.

Section Manager.
Context {fs : Fs} {json : Json}.

Definition logger (level msg : string) : M world () :=
  λ w, (World (files w) (logged w ++ [Log level msg]), inr ()).

Definition fs_existsSync (path : string) : M world bool :=
  λ w, (w, inr (bool_decide (is_Some (files w !! path)))).

Definition fs_readFileSync (path : string) : M world string :=
  λ w, match files w !! path with
       | Some content => (w, inr content)
       | None => (w, inl (Error ("ENOENT: no such file or directory, open '"
                                   +:+ path +:+ "'")))
       end.

Definition fs_writeFile (path content : string) : M world () :=
  λ w, match fs_fault (files w) (WriteFile path content) with
       | None => (World (<[ path := content ]> (files w)) (logged w), inr ())
       | Some f =>
           (World (match fail_partial f with
                   | Some part => <[ path := part ]> (files w)
                   | None => files w
                   end) (logged w),
            inl (fail_error f))
       end.

Definition fs_rename (oldPath newPath : string) : M world () :=
  λ w, match fs_fault (files w) (Rename oldPath newPath) with
       | Some f => (w, inl (fail_error f))
       | None =>
           match files w !! oldPath with
           | Some content =>
               (World (<[ newPath := content ]> (delete oldPath (files w)))
                      (logged w), inr ())
           | None =>
               (w, inl (Error ("ENOENT: no such file or directory, rename '"
                                 +:+ oldPath +:+ "' -> '" +:+ newPath +:+ "'")))
           end
       end.

Definition loadConfig (configPath : string) : M world (gmap string jsval) :=
  found ← fs_existsSync configPath;
  if found : bool then
    logger "info" ("Loading config from " +:+ configPath);;
    content ← fs_readFileSync configPath;
    lift (JSON_parse content)
  else
    throw (Error ("Config file not found (" +:+ configPath +:+ ")")).

(** [new ConfigManager(configPath, logger)] *)
Definition constructor (configPath : string) : M world ConfigManager :=
  loaded ← loadConfig configPath;
  mret {| configPath := configPath; config := loaded |}.

(** A step on the world, inside a method. *)
Definition in_env {A} (m : M world A) : M state A :=
  λ s, let '(w, r) := m (env s) in (State (this s) w, r).

Definition get_this : M state ConfigManager := λ s, (s, inr (this s)).

(** [this.config = doc] *)
Definition assign_config (doc : gmap string jsval) : M state () :=
  λ s, (State {| configPath := configPath (this s); config := doc |} (env s),
        inr ()).

(** [saveConfig] after its first [await]: the write completes, then the
    rename and the log entry; a failure is logged and thrown again. *)
Definition persist (tempPath content configPath : string) : M state () :=
  try_catch
    (in_env (fs_writeFile tempPath content);;
     in_env (fs_rename tempPath configPath);;
     in_env (logger "info" ("Config saved atomically to " +:+ configPath)))
    (λ error,
       in_env (logger "error" ("Failed to save config: " +:+ err_message error));;
       throw error).

(** A call of [saveConfig(newConfig)] up to its first [await]: the merge
    and the serialisation run at once, and the promise of the rest is
    returned. *)
Definition saveConfig_call (newConfig : gmap string jsval)
  : M state (M state ()) :=
  self ← get_this;
  assign_config (newConfig ∪ config self);;   (* { ...this.config, ...newConfig } *)
  self ← get_this;
  let tempPath := configPath self +:+ ".tmp" in
  let content := JSON_stringify (config self) in
  mret (persist tempPath content (configPath self)).

(** [await this.saveConfig(newConfig)] *)
Definition saveConfig (newConfig : gmap string jsval) : M state () :=
  promise ← saveConfig_call newConfig;
  promise.

(** The names of the properties of [Object.prototype], which the document
    inherits: it comes from [JSON.parse] or from an object spread. *)
Definition Object_prototype : list string :=
  ["constructor"; "__defineGetter__"; "__defineSetter__"; "hasOwnProperty";
   "__lookupGetter__"; "__lookupSetter__"; "isPrototypeOf";
   "propertyIsEnumerable"; "toString"; "valueOf"; "__proto__";
   "toLocaleString"].

(** [doc[key]]: the own property, else the inherited one, else
    [undefined]. *)
Definition read_property (doc : gmap string jsval) (key : string) : jsval :=
  match doc !! key with
  | Some v => v
  | None =>
      if bool_decide (key ∈ Object_prototype) then JBuiltin key else JUndefined
  end.

(** [doc[key] = value]: an own property is written or created, except
    that ["__proto__"], where the document has no such property of its own,
    reaches the setter of [Object.prototype]: no property is created (the
    prototype it may change is not kept by the spread that follows in
    [set]). *)
Definition write_property (doc : gmap string jsval) (key : string)
    (value : jsval) : gmap string jsval :=
  match doc !! key with
  | None => if bool_decide (key = "__proto__") then doc else <[ key := value ]> doc
  | Some _ => <[ key := value ]> doc
  end.

Definition get (key : string) : M state jsval :=
  self ← get_this;
  mret (read_property (config self) key).

(** [set] does not await the promise of [saveConfig]: it is returned here,
    to be run (or not) later. *)
Definition set (key : string) (value : jsval) : M state (M state ()) :=
  self ← get_this;
  assign_config (write_property (config self) key value);;   (* this.config[key] = value *)
  self ← get_this;
  saveConfig_call (config self).

End Manager.

(** A file system on which nothing fails. *)
Definition reliable_fs : Fs := λ _ _, None.

(** A file system on which every write fails, leaving [partial] behind. *)
Definition failing_write (msg : string) (partial : option string) : Fs :=
  λ _ op,
    match op with
    | WriteFile _ _ => Some {| fail_error := Error msg; fail_partial := partial |}
    | Rename _ _ => None
    end.

(** A file system on which every rename fails. *)
Definition failing_rename (msg : string) : Fs :=
  λ _ op,
    match op with
    | WriteFile _ _ => None
    | Rename _ _ => Some {| fail_error := Error msg; fail_partial := None |}
    end.

Definition quoted (s : string) : string := String "034" (s +:+ String "034" "").

(** A compact rendering of a value, for the examples: it stands in for
    [JSON.stringify], whose layout and key order are outside the model. *)
Fixpoint render (v : jsval) : string :=
  match v with
  | JUndefined => "undefined"
  | JNull => "null"
  | JBool true => "true"
  | JBool false => "false"
  | JNum n => pretty n
  | JStr s => quoted s
  | JArr l => "[" +:+ foldr (λ x acc, render x +:+ "," +:+ acc) "" l +:+ "]"
  | JObj m =>
      "{" +:+ map_fold (λ k x acc, quoted k +:+ ":" +:+ render x +:+ "," +:+ acc)
                       "" m +:+ "}"
  | JBuiltin _ => "undefined"
  end.

(** A JSON double, as the tests stub [fs.readFileSync]: it parses the texts
    of a table and nothing else. *)
Definition table_json (table : gmap string (gmap string jsval)) : Json := {|
  JSON_stringify := λ doc, render (JObj doc);
  JSON_parse := λ text,
    match table !! text with
    | Some doc => inr doc
    | None => inl (JsError "SyntaxError" "Unexpected token")
    end;
|}.

Definition example_path : string := "ddns-config.json".

(** The manager of the merge example: the document {a: 1}, in memory and
    on disk. *)
Definition example_state : state :=
  State {| configPath := example_path; config := {[ "a" := JNum 1 ]} |}
        (World {[ example_path := render (JObj {[ "a" := JNum 1 ]}) ]} []).

End Config.

(** ** Strings: what [trim] leaves, and template literals *)

(** Every character of [s] is white space. *)
Fixpoint all_white (s : string) : bool :=
  match s with
  | "" => true
  | String a r => is_white_space a && all_white r
  end.

(** Every character of [s] is ASCII (below 128).  On such strings the
    white space JavaScript's [trim] strips is what [is_white_space] lists. *)
Definition is_ascii_char (a : ascii) : bool :=
  match a with
  | Ascii _ _ _ _ _ _ _ high => negb high
  end.

Fixpoint is_ascii (s : string) : bool :=
  match s with
  | "" => true
  | String a r => is_ascii_char a && is_ascii r
  end.

(** [s] begins with a white-space character. *)
Definition starts_white (s : string) : bool :=
  match s with
  | "" => false
  | String a _ => is_white_space a
  end.

(** [s] ends with a white-space character. *)
Fixpoint ends_white (s : string) : bool :=
  match s with
  | "" => false
  | String a "" => is_white_space a
  | String _ r => ends_white r
  end.

(** [arr.join(sep)] on strings *)
Definition join (sep : string) (l : list string) : string :=
  match l with
  | [] => ""
  | x :: xs => foldl (λ acc y, acc +:+ sep +:+ y) x xs
  end.

(** ToString, as a template literal [`${v}`] applies it.  Numbers are the
    integers, printed in decimal (as JavaScript prints the integers it holds
    exactly, up to 2^53); a built-in function prints as Node prints it. *)
Fixpoint to_string (v : jsval) : string :=
  match v with
  | JUndefined => "undefined"
  | JNull => "null"
  | JBool true => "true"
  | JBool false => "false"
  | JNum n => pretty n
  | JStr s => s
  | JArr l => join "," (map (λ x, if nullish x then "" else to_string x) l)
  | JObj _ => "[object Object]"
  | JBuiltin "__proto__" => "[object Object]"
  | JBuiltin "constructor" => "function Object() { [native code] }"
  | JBuiltin name => "function " +:+ name +:+ "() { [native code] }"
  end.

(** [typeof v] *)
Definition typeof (v : jsval) : string :=
  match v with
  | JUndefined => "undefined"
  | JBool _ => "boolean"
  | JNum _ => "number"
  | JStr _ => "string"
  | JNull | JArr _ | JObj _ | JBuiltin "__proto__" => "object"
  | JBuiltin _ => "function"
  end.

(** ** The logger factory ([lib/logger.js]) *)

Module Logger.

Inductive transport : Type :=
| Console (level : string)                   (* new winston.transports.Console({ level }) *)
| File (level : string) (filename : string). (* new winston.transports.File({ level, filename }) *)

(** What [createLogger] hands to [winston.createLogger], the format apart. *)
Record options : Type := {
  level : string;
  transports : list transport;
}.

Definition validLogLevels : list string :=
  ["error"; "warn"; "info"; "http"; "verbose"; "debug"].

(** [logPath.trim() === ""], read only where [logPath] is a string. *)
Definition trims_to_empty (v : jsval) : bool :=
  match v with
  | JStr s => bool_decide (trim s = "")
  | _ => false
  end.

(** [validLogLevels.includes(logLevel)] *)
Definition is_valid_level (v : jsval) : bool :=
  match v with
  | JStr l => bool_decide (l ∈ validLogLevels)
  | _ => false
  end.

(** [createLogger(logPath, logLevel = "info")]: the default stands in for
    [undefined] only. *)
Definition createLogger (logPath logLevel : jsval) : completion options :=
  let logLevel := match logLevel with JUndefined => JStr "info" | v => v end in
  if negb (truthy logPath) || negb (bool_decide (typeof logPath = "string"))
     || trims_to_empty logPath
  then inl (Error "logPath must be a non-empty string")
  else if negb (is_valid_level logLevel)
  then inl (Error ("Invalid log level. Must be one of: " +:+
                   join ", " validLogLevels))
  else inr {| level := to_string logLevel;
              transports := [Console (to_string logLevel);
                             File (to_string logLevel) (to_string logPath)] |}.

End Logger.

(** ** The run ([index.js]) *)

Module Main.
Import Cloudflare Config.

(** The state of one run: what the client did, the manager and its world,
    and the promises of [saveConfig] that [set] left behind, oldest first.
    The one logger is seen through two logs: the entries of the client and of
    [main] are in the trace, those of the manager in its world.  A promise
    left behind is recorded, not run: in the program it runs while [main]
    awaits its next request, and a rejection of it is handled by nobody.
    The facts below are about the runs that leave none behind. *)
Record app : Type := App {
  network : trace;
  manager : state;
  floating : list (M state ());
}.

Section Run.
Context {net : Axios} {fs : Fs} {json : Json}.

(** A method of the client, run on the trace. *)
Definition client {A} (m : M trace A) : M app A :=
  λ a, let '(tr, r) := m (network a) in (App tr (manager a) (floating a), r).

(** [configManager.get(key)] *)
Definition configManager_get (key : string) : M app jsval :=
  λ a, let '(s, r) := get key (manager a) in (App (network a) s (floating a), r).

(** [configManager.set(key, value)]: the promise is dropped by the caller
    and kept here. *)
Definition configManager_set (key : string) (value : jsval) : M app () :=
  λ a, match set key value (manager a) with
       | (s, inr promise) =>
           (App (network a) s (floating a ++ [promise]), inr ())
       | (s, inl e) => (App (network a) s (floating a), inl e)
       end.

(** [logger.<level>(msg)] in [main] *)
Definition logger_log (level msg : string) : M app () :=
  λ a, (App (network a ++ [Logged (Log level msg)]) (manager a) (floating a),
        inr ()).

(** The [try] block of [main].  [getPublicIP] returns strings only, so the
    address is passed on as the string it is. *)
Definition main_try (cloudflare : CloudflareAPI) (SUBDOMAIN : string)
  : M app () :=
  publicIP ← client (getPublicIP cloudflare);
  logger_log "info" ("Current Public IP: " +:+ to_string publicIP);;
  cached ← configManager_get "zoneId";
  zoneId ← (if negb (truthy cached) then
              fetched ← client (getZoneId cloudflare);
              configManager_set "zoneId" fetched;;
              mret fetched
            else mret cached);
  cached ← configManager_get "recordId";
  recordId ← (if negb (truthy cached) then
                fetched ← client (getRecordId cloudflare (to_string zoneId)
                                              SUBDOMAIN);
                if negb (truthy fetched)
                then throw (Error "DNS record not found. Please create it first.")
                else configManager_set "recordId" fetched;;
                     mret fetched
              else mret cached);
  client (updateDNSRecord cloudflare (to_string zoneId) (to_string recordId)
                          SUBDOMAIN (to_string publicIP));;
  mret ().

Definition main (cloudflare : CloudflareAPI) (SUBDOMAIN : string) : M app () :=
  try_catch (main_try cloudflare SUBDOMAIN)
            (λ error, logger_log "error" ("Error: " +:+ err_message error)).

End Run.

(** A run's start: nothing done yet, the manager holding [d], the file
    holding its rendering. *)
Definition fresh_app (d : gmap string jsval) : app :=
  App [] (State {| configPath := example_path; config := d |}
                (World {[ example_path := render (JObj d) ]} []))
      [].

End Main.

(** * Facts *)

(** ** The monad *)

Lemma bind_run {S A B} (m : M S A) (k : A → M S B) (s : S) :
  (m ≫= k) s =
  match m s with
  | (s', inr a) => k a s'
  | (s', inl e) => (s', inl e)
  end.
Proof. reflexivity. Qed.

Lemma ret_run {S A} (a : A) (s : S) : (mret a : M S A) s = (s, inr a).
Proof. reflexivity. Qed.

Lemma throw_run {S A} (e : exn) (s : S) : (throw e : M S A) s = (s, inl e).
Proof. reflexivity. Qed.

Lemma bind_lift {S A B} (c : completion A) (k : A → M S B) (s : S) :
  (lift c ≫= k) s = match c with inr a => k a s | inl e => (s, inl e) end.
Proof. rewrite bind_run. unfold lift. by destruct c. Qed.

Lemma try_catch_run {S A} (m : M S A) (h : exn → M S A) (s : S) :
  try_catch m h s =
  match m s with
  | (s', inl e) => h e s'
  | (s', inr a) => (s', inr a)
  end.
Proof. unfold try_catch. by destruct (m s) as [s' [e|a]]. Qed.

(** ** Reading values *)

Lemma call_trim_nullish expr v :
  nullish v = true → call_trim expr v = inl (cannot_read v "trim").
Proof. by destruct v. Qed.

Lemma call_trim_returns expr v w :
  call_trim expr v = inr w → ∃ s, v = JStr s ∧ w = JStr (trim s).
Proof. destruct v; cbn; intros [= <-]; eauto. Qed.

(** ** The client *)

Section client_facts.
Import Cloudflare.
Context {net : Axios}.

Lemma reports_success_not_failure d : reports_success d → ¬ reports_failure d.
Proof. intros (s & Hs & Ht) (s' & Hs' & Ht'). congruence. Qed.

Lemma calls_app (tr1 tr2 : trace) : calls (tr1 ++ tr2) = calls tr1 ++ calls tr2.
Proof. apply omap_app. Qed.

(** The one step every lookup shares: log, call, then read the answer. *)
Lemma logged_call_run {A} msg req (k : response → M trace A) tr :
  (logger_http msg;; response ← await_call req; k response) tr =
  match axios (tr ++ [http_entry msg]) req with
  | inl e => (tr ++ [http_entry msg; Called req], inl e)
  | inr r => k r (tr ++ [http_entry msg; Called req])
  end.
Proof.
  rewrite bind_run. cbn [logger_http]. rewrite bind_run. unfold await_call.
  rewrite <-app_assoc. cbn [app]. by destruct (axios _ _).
Qed.

Lemma getPublicIP_primary_rejected this tr e :
  axios (tr ++ [http_entry "GET: Fetching public IP address..."])
        (AxiosGet primary_url) = inl e →
  let tr2 := tr ++ [http_entry "GET: Fetching public IP address...";
                    Called (AxiosGet primary_url)] in
  getPublicIP this tr =
  (tr2 ++ [Called (AxiosGet secondary_url)],
   match axios tr2 (AxiosGet secondary_url) with
   | inl e2 => inl e2
   | inr r => call_trim "response.data" (data r)
   end).
Proof.
  intros Hp tr2. unfold getPublicIP. rewrite bind_run. cbn [logger_http].
  rewrite bind_run, try_catch_run. unfold await_call at 1. rewrite Hp.
  unfold await_call. rewrite <-app_assoc. cbn [app]. fold tr2.
  by destruct (axios tr2 _) as [e2|r].
Qed.

Lemma getPublicIP_primary_resolved this tr r :
  axios (tr ++ [http_entry "GET: Fetching public IP address..."])
        (AxiosGet primary_url) = inr r →
  getPublicIP this tr =
  (tr ++ [http_entry "GET: Fetching public IP address...";
          Called (AxiosGet primary_url)],
   call_trim "response.data" (data r)).
Proof.
  intros Hp. unfold getPublicIP. rewrite bind_run. cbn [logger_http].
  rewrite bind_run, try_catch_run. unfold await_call. rewrite Hp.
  by rewrite <-app_assoc.
Qed.

(** C1 (amended): when the call to the primary service is rejected (a
    transport error or a status outside 2xx), [getPublicIP] makes exactly one
    call to the secondary service, never calls the primary again and logs
    nothing more; a rejection of the secondary call is the outcome of
    [getPublicIP], unchanged, and nothing is called after it.  A primary
    response that resolves is never followed by a call to the secondary
    service, whatever its body: the outcome is that of reading the body. *)
Theorem getPublicIP_fallback this tr :
  let tr1 := tr ++ [http_entry "GET: Fetching public IP address..."] in
  let tr2 := tr1 ++ [Called (AxiosGet primary_url)] in
  (∀ e, axios tr1 (AxiosGet primary_url) = inl e →
        (getPublicIP this tr).1 = tr2 ++ [Called (AxiosGet secondary_url)] ∧
        calls (getPublicIP this tr).1 =
          calls tr ++ [AxiosGet primary_url; AxiosGet secondary_url] ∧
        (∀ e2, axios tr2 (AxiosGet secondary_url) = inl e2 →
               (getPublicIP this tr).2 = inl e2)) ∧
  (∀ r, axios tr1 (AxiosGet primary_url) = inr r →
        getPublicIP this tr = (tr2, call_trim "response.data" (data r)) ∧
        calls (getPublicIP this tr).1 = calls tr ++ [AxiosGet primary_url]).
Proof.
  intros tr1 tr2. split.
  - intros e Hp. rewrite (getPublicIP_primary_rejected _ _ _ Hp). cbn [fst snd].
    unfold tr2, tr1. rewrite <-!app_assoc. cbn [app]. split_and!; [done|..].
    + by rewrite calls_app.
    + intros e2 Hs. by rewrite Hs.
  - intros r Hp. rewrite (getPublicIP_primary_resolved _ _ _ Hp). cbn [fst].
    unfold tr2, tr1. rewrite <-!app_assoc. cbn [app]. split; [done|].
    by rewrite calls_app.
Qed.

(** C2 (amended): whichever service answered, if the body of its response
    is [undefined] or [null], [getPublicIP] throws a TypeError and returns
    nothing, although the request succeeded; it returns only when the body is
    a string, and the empty string is such a body: it is returned, trimmed
    (so empty), as any other. *)
Theorem getPublicIP_body this tr r :
  let tr1 := tr ++ [http_entry "GET: Fetching public IP address..."] in
  let tr2 := tr1 ++ [Called (AxiosGet primary_url)] in
  axios tr1 (AxiosGet primary_url) = inr r ∨
  ((∃ e, axios tr1 (AxiosGet primary_url) = inl e) ∧
   axios tr2 (AxiosGet secondary_url) = inr r) →
  (nullish (data r) = true →
     (getPublicIP this tr).2 = inl (cannot_read (data r) "trim")) ∧
  (∀ v, (getPublicIP this tr).2 = inr v →
     ∃ s, data r = JStr s ∧ v = JStr (trim s)) ∧
  (data r = JStr "" → (getPublicIP this tr).2 = inr (JStr "")).
Proof.
  intros tr1 tr2 Hr.
  assert ((getPublicIP this tr).2 = call_trim "response.data" (data r)) as ->.
  { destruct Hr as [Hp|[[e Hp] Hs]].
    - by rewrite (getPublicIP_primary_resolved _ _ _ Hp).
    - rewrite (getPublicIP_primary_rejected _ _ _ Hp). cbn [snd].
      unfold tr2, tr1 in Hs. rewrite <-app_assoc in Hs. cbn [app] in Hs.
      by rewrite Hs. }
  split_and!.
  - apply call_trim_nullish.
  - apply call_trim_returns.
  - by intros ->.
Qed.

(** What [getZoneId] does with a resolved response. *)
Lemma getZoneId_resolved this tr d :
  axios (tr ++ [http_entry "GET: Fetching Zone ID..."]) (zones_request this)
    = inr (Response d) →
  (getZoneId this tr).2 =
  (success ← get_prop d "success";
   if truthy success then
     result ← get_prop d "result";
     zone ← get_index result 0;
     get_prop zone "id"
   else inl (Error "Failed to fetch Zone ID")).
Proof.
  intros Hax. unfold getZoneId. rewrite logged_call_run, Hax, bind_lift.
  cbn [data]. destruct (get_prop d "success") as [e|s]; [done|]. cbn.
  destruct (truthy s); cbn [negb]; [|done].
  rewrite bind_lift. destruct (get_prop d "result") as [e|l]; [done|].
  rewrite bind_lift. cbn. by destruct (get_index l 0).
Qed.

(** What [getRecordId] does with a resolved response. *)
Lemma getRecordId_resolved this zoneId subdomain tr d :
  axios (tr ++ [http_entry "GET: Fetching Record ID..."])
        (records_request this zoneId subdomain) = inr (Response d) →
  (getRecordId this zoneId subdomain tr).2 =
  (success ← get_prop d "success";
   if truthy success then
     result ← get_prop d "result";
     record ← get_index result 0;
     id ← get_prop_opt record "id";
     inr (js_or id JNull)
   else inl (Error "Failed to fetch Record ID")).
Proof.
  intros Hax. unfold getRecordId. rewrite logged_call_run, Hax, bind_lift.
  cbn [data]. destruct (get_prop d "success") as [e|s]; [done|]. cbn.
  destruct (truthy s); cbn [negb]; [|done].
  rewrite bind_lift. destruct (get_prop d "result") as [e|l]; [done|].
  rewrite bind_lift. cbn. destruct (get_index l 0) as [e|z]; [done|].
  rewrite bind_lift. cbn. by destruct (get_prop_opt z "id").
Qed.

(** C3 (amended): on a payload that reports failure [getRecordId] throws
    Error("Failed to fetch Record ID"); on one that reports success with no
    match it returns [null] and throws nothing; on one that reports success
    with a first match it returns that match's [id] when the [id] is truthy
    (a string that is not empty), and [null] when the [id] is falsy or the
    match has none. *)
Theorem getRecordId_first_match this zoneId subdomain tr d :
  axios (tr ++ [http_entry "GET: Fetching Record ID..."])
        (records_request this zoneId subdomain) = inr (Response d) →
  let outcome := (getRecordId this zoneId subdomain tr).2 in
  (reports_failure d → outcome = inl (Error "Failed to fetch Record ID")) ∧
  (reports_success d → result_is d [] → outcome = inr JNull) ∧
  (∀ fields rest, reports_success d → result_is d (JObj fields :: rest) →
     match fields !! "id" with
     | Some id => outcome = inr (if truthy id then id else JNull)
     | None => outcome = inr JNull
     end).
Proof.
  intros Hax outcome. unfold outcome. rewrite (getRecordId_resolved _ _ _ _ _ Hax).
  split_and!.
  - intros (s & -> & Hs). cbn. by rewrite Hs.
  - intros (s & -> & Hs) Hres. cbn. by rewrite Hs, Hres.
  - intros fields rest (s & -> & Hs) Hres. cbn. rewrite Hs, Hres. cbn.
    unfold js_or. by destruct (fields !! "id") as [id|].
Qed.

(** C4 (amended): on a payload that reports failure [getZoneId] throws
    Error("Failed to fetch Zone ID"); on one that reports success with a
    result list that is not empty it yields what the [id] of the element at
    index 0 reads as, whatever follows it in the list: for a zone object with
    an [id], that [id]. *)
Theorem getZoneId_first_zone this tr d :
  axios (tr ++ [http_entry "GET: Fetching Zone ID..."]) (zones_request this)
    = inr (Response d) →
  let outcome := (getZoneId this tr).2 in
  (reports_failure d → outcome = inl (Error "Failed to fetch Zone ID")) ∧
  (∀ zone rest, reports_success d → result_is d (zone :: rest) →
     outcome = get_prop zone "id" ∧
     ∀ fields id, zone = JObj fields → fields !! "id" = Some id →
                  outcome = inr id).
Proof.
  intros Hax outcome. unfold outcome. rewrite (getZoneId_resolved _ _ _ Hax).
  split.
  - intros (s & -> & Hs). cbn. by rewrite Hs.
  - intros zone rest (s & -> & Hs) Hres. red in Hres. cbn. rewrite Hs, Hres.
    cbn [mbind completion_bind get_index lookup list_lookup default id].
    split; [done|]. intros fields id -> Hid. cbn [get_prop]. by rewrite Hid.
Qed.

(** C10: on a payload that reports success with an empty result list,
    [getZoneId] returns nothing, neither an identifier nor [null]: reading
    [id] of the missing first element throws a TypeError; [getRecordId], on
    such a payload, returns [null]. *)
Theorem getZoneId_empty_result this zoneId subdomain tr d :
  reports_success d → result_is d [] →
  (axios (tr ++ [http_entry "GET: Fetching Zone ID..."]) (zones_request this)
     = inr (Response d) →
   (getZoneId this tr).2 = inl (cannot_read JUndefined "id")) ∧
  (axios (tr ++ [http_entry "GET: Fetching Record ID..."])
         (records_request this zoneId subdomain) = inr (Response d) →
   (getRecordId this zoneId subdomain tr).2 = inr JNull).
Proof.
  intros (s & Hsucc & Hs) Hres. split; intros Hax.
  - rewrite (getZoneId_resolved _ _ _ Hax), Hsucc. cbn. by rewrite Hs, Hres.
  - rewrite (getRecordId_resolved _ _ _ _ _ Hax), Hsucc. cbn. by rewrite Hs, Hres.
Qed.

Lemma record_update_lookup this subdomain publicIP k :
  record_update this subdomain publicIP !! k =
  if decide (k = "type") then Some (JStr "A")
  else if decide (k = "name")
       then Some (JStr (subdomain +:+ "." +:+ domainName this))
  else if decide (k = "content") then Some (JStr publicIP)
  else if decide (k = "ttl") then Some (JNum 1800)
  else if decide (k = "proxied") then Some (JBool false)
  else None.
Proof.
  unfold record_update. repeat case_decide; simplify_map_eq; done.
Qed.

(** C5: [updateDNSRecord] always sends one PUT, whatever the address and
    whatever was sent before, to the record's path, and its body has exactly
    the fields type "A", name subdomain.domainName, content ip, ttl 1800 and
    proxied false; when the provider's payload reports success, that payload
    is what the call returns. *)
Theorem updateDNSRecord_request this zoneId recordId subdomain publicIP tr :
  let entry := http_entry ("PUT: Updating DNS record for " +:+ subdomain +:+
                           " to IP: " +:+ publicIP) in
  let run := updateDNSRecord this zoneId recordId subdomain publicIP tr in
  (∃ body,
     calls run.1 =
       calls tr ++ [ApiPut ("/zones/" +:+ zoneId +:+ "/dns_records/" +:+ recordId)
                           (JObj body)] ∧
     dom body = {[ "type"; "name"; "content"; "ttl"; "proxied" ]} ∧
     body !! "type" = Some (JStr "A") ∧
     body !! "name" = Some (JStr (subdomain +:+ "." +:+ domainName this)) ∧
     body !! "content" = Some (JStr publicIP) ∧
     body !! "ttl" = Some (JNum 1800) ∧
     body !! "proxied" = Some (JBool false)) ∧
  (∀ d, axios (tr ++ [entry])
              (update_request this zoneId recordId subdomain publicIP)
          = inr (Response d) →
        reports_success d → run.2 = inr d).
Proof.
  intros entry run. unfold run, updateDNSRecord. rewrite logged_call_run.
  fold entry. split.
  - exists (record_update this subdomain publicIP).
    split; [|split; [|by rewrite !record_update_lookup]].
    + destruct (axios _ _) as [e|r]; cbn [fst].
      * rewrite calls_app. done.
      * rewrite bind_lift.
        destruct (get_prop (data r) "success") as [e|s]; cbn [fst];
          [by rewrite calls_app|].
        destruct (truthy s); cbn [negb];
          [|rewrite throw_run; cbn [fst]; by rewrite calls_app].
        rewrite bind_run. cbn [logger_http]. rewrite ret_run. cbn [fst].
        rewrite !calls_app. cbn. by rewrite app_nil_r.
    + unfold record_update. rewrite !dom_insert_L, dom_empty_L. set_solver.
  - intros d -> (s & Hsucc & Hs). rewrite bind_lift. cbn [data].
    rewrite Hsucc, Hs. cbn [negb]. by rewrite bind_run.
Qed.

End client_facts.

(** ** The configuration manager *)

Lemma prefix_app (p post : string) : String.prefix p (p +:+ post) = true.
Proof.
  induction p as [|a p IH].
  - by destruct post.
  - change (String a p +:+ post) with (String a (p +:+ post)).
    cbn [String.prefix]. by destruct (ascii_dec a a).
Qed.

Lemma includes_prefix (needle hay : string) :
  String.prefix needle hay = true → includes needle hay = true.
Proof. intros Hp. destruct hay; cbn [includes]; by rewrite Hp. Qed.

Lemma includes_app (p pre post : string) :
  includes p (pre +:+ p +:+ post) = true.
Proof.
  induction pre as [|a pre IH].
  - change ("" +:+ p +:+ post) with (p +:+ post).
    apply includes_prefix, prefix_app.
  - change (String a pre +:+ p +:+ post) with (String a (pre +:+ p +:+ post)).
    cbn [includes]. rewrite IH. apply orb_true_r.
Qed.

Lemma tmp_path_differs (path : string) : path +:+ ".tmp" ≠ path.
Proof.
  induction path as [|a path IH]; [done|].
  change (String a path +:+ ".tmp") with (String a (path +:+ ".tmp")).
  intros [= Heq]. by apply IH.
Qed.

Section manager_facts.
Import Config.
Context {fs : Fs} {json : Json}.

Lemma in_env_run {A} (m : M world A) (s : state) :
  in_env m s = (State (this s) (m (env s)).1, (m (env s)).2).
Proof. unfold in_env. by destruct (m (env s)). Qed.

(** The three ways [persist] can end. *)
Lemma persist_run tmp content path s :
  let w := env s in
  let failed (fs : gmap string string) (f : fs_failure) :=
    (State (this s)
       (World fs (logged w ++
          [Log "error" ("Failed to save config: " +:+ err_message (fail_error f))])),
     inl (fail_error f) : completion ()) in
  persist tmp content path s =
  match fs_fault (files w) (WriteFile tmp content) with
  | Some f =>
      failed (match fail_partial f with
              | Some part => <[ tmp := part ]> (files w)
              | None => files w
              end) f
  | None =>
      match fs_fault (<[ tmp := content ]> (files w)) (Rename tmp path) with
      | Some f => failed (<[ tmp := content ]> (files w)) f
      | None =>
          (State (this s)
             (World (<[ path := content ]> (delete tmp (<[ tmp := content ]> (files w))))
                    (logged w ++ [Log "info" ("Config saved atomically to " +:+ path)])),
           inr ())
      end
  end.
Proof.
  intros w failed.
  unfold persist, try_catch, in_env, fs_writeFile, fs_rename, logger, throw,
    mbind, M_bind.
  cbn [this env files logged]. fold w.
  destruct (fs_fault (files w) (WriteFile tmp content)) as [f|];
    cbn [this env files logged]; [done|].
  destruct (fs_fault _ (Rename tmp path)) as [f|];
    cbn [this env files logged]; [done|].
  by rewrite lookup_insert_eq.
Qed.

Lemma persist_this tmp content path s :
  this (persist tmp content path s).1 = this s.
Proof.
  rewrite persist_run. cbv zeta.
  repeat (destruct (fs_fault _ _) as [?|]); done.
Qed.

(** [saveConfig] merges at once and hands the merged document, serialised,
    to [persist]. *)
Lemma saveConfig_run p s :
  let path := configPath (this s) in
  let merged := p ∪ config (this s) in
  saveConfig p s =
  persist (path +:+ ".tmp") (JSON_stringify merged) path
    (State {| configPath := path; config := merged |} (env s)).
Proof. reflexivity. Qed.

(** C6: when the write and the rename succeed, [saveConfig p] on a manager
    holding [d] returns normally, holds [p ∪ d] in memory and leaves the
    serialised [p ∪ d] at the configured path (and no temporary file); in
    [p ∪ d] every key of [p] has [p]'s value and every other key has what
    [d] had for it. *)
Theorem saveConfig_merges s p :
  let d := config (this s) in
  let path := configPath (this s) in
  let tmp := path +:+ ".tmp" in
  let merged := p ∪ d in
  fs_fault (files (env s)) (WriteFile tmp (JSON_stringify merged)) = None →
  fs_fault (<[ tmp := JSON_stringify merged ]> (files (env s)))
           (Rename tmp path) = None →
  let s' := (saveConfig p s).1 in
  (saveConfig p s).2 = inr () ∧
  config (this s') = merged ∧
  files (env s') !! path = Some (JSON_stringify merged) ∧
  files (env s') !! tmp = None ∧
  (∀ k v, p !! k = Some v → merged !! k = Some v) ∧
  (∀ k, p !! k = None → merged !! k = d !! k).
Proof.
  intros d path tmp merged Hwrite Hrename s'. unfold s'.
  rewrite saveConfig_run, persist_run. cbv zeta.
  cbn [this env files logged config configPath].
  fold d path tmp merged. rewrite Hwrite, Hrename.
  cbn [fst snd this env files config]. split_and!; try done.
  - apply lookup_insert_eq.
  - rewrite lookup_insert_ne by (symmetry; apply tmp_path_differs).
    apply lookup_delete_eq.
  - intros k v Hk. by apply lookup_union_Some_l.
  - intros k Hk. by apply lookup_union_r.
Qed.

(** C8: when the write of [saveConfig p] fails, or its rename does, the
    call fails with that step's error, unchanged, after logging it; memory
    already holds the merged document; the file at the configured path is
    what it was before the call, so where it held the serialised old
    document and the merge changed the serialisation, the file no longer
    matches memory. *)
Theorem saveConfig_failure s p f :
  let d := config (this s) in
  let path := configPath (this s) in
  let tmp := path +:+ ".tmp" in
  let merged := p ∪ d in
  let s' := (saveConfig p s).1 in
  fs_fault (files (env s)) (WriteFile tmp (JSON_stringify merged)) = Some f ∨
  fs_fault (files (env s)) (WriteFile tmp (JSON_stringify merged)) = None ∧
  fs_fault (<[ tmp := JSON_stringify merged ]> (files (env s)))
           (Rename tmp path) = Some f →
  (saveConfig p s).2 = inl (fail_error f) ∧
  logged (env s') =
    logged (env s) ++
    [Log "error" ("Failed to save config: " +:+ err_message (fail_error f))] ∧
  config (this s') = merged ∧
  files (env s') !! path = files (env s) !! path ∧
  (files (env s) !! path = Some (JSON_stringify d) →
   JSON_stringify merged ≠ JSON_stringify d →
   files (env s') !! path ≠ Some (JSON_stringify (config (this s')))).
Proof.
  intros d path tmp merged s' Hfault. unfold s'.
  rewrite saveConfig_run, persist_run. cbv zeta.
  cbn [this env files logged config configPath]. fold d path tmp merged.
  assert (tmp ≠ path) as Hne by apply tmp_path_differs.
  destruct Hfault as [Hwrite|[Hwrite Hrename]]; rewrite Hwrite; [|rewrite Hrename];
    cbn [fst snd this env files logged config].
  - assert ((match fail_partial f with
             | Some part => <[ tmp := part ]> (files (env s))
             | None => files (env s)
             end) !! path = files (env s) !! path) as Hpath.
    { destruct (fail_partial f); [by rewrite lookup_insert_ne|done]. }
    split_and!; [done..|].
    intros Hsync Hchanged. rewrite Hpath, Hsync. congruence.
  - rewrite lookup_insert_ne by done. split_and!; [done..|].
    intros Hsync Hchanged. rewrite Hsync. congruence.
Qed.

(** The two ways construction can go. *)
Lemma constructor_run path w :
  constructor path w =
  match files w !! path with
  | None => (w, inl (Error ("Config file not found (" +:+ path +:+ ")")))
  | Some content =>
      (World (files w) (logged w ++ [Log "info" ("Loading config from " +:+ path)]),
       doc ← JSON_parse content;
       inr {| configPath := path; config := doc |})
  end.
Proof.
  unfold constructor, loadConfig, fs_existsSync, fs_readFileSync, logger, lift,
    throw, mbind at 1 2 3 4, mret, M_bind, M_ret.
  case_bool_decide as Hfound.
  - destruct Hfound as [content Hfound]. cbn [files logged]. rewrite Hfound.
    by destruct (JSON_parse content).
  - by destruct (files w !! path) as [content|]; [destruct Hfound|].
Qed.

(** C7: where the configured path names no file, construction throws an
    Error whose message contains the path, and it creates nothing: the
    files are as before; where the file exists and parses, construction
    returns a manager that already holds the parsed document. *)
Theorem constructor_loads path w :
  (files w !! path = None →
   ∃ msg, constructor path w = (w, inl (Error msg)) ∧
          msg = "Config file not found (" +:+ path +:+ ")" ∧
          includes path msg = true) ∧
  (∀ content doc,
     files w !! path = Some content → JSON_parse content = inr doc →
     (constructor path w).2 = inr {| configPath := path; config := doc |} ∧
     files (constructor path w).1 = files w).
Proof.
  split.
  - intros Hnone. eexists. split_and!; [|done|apply includes_app].
    by rewrite (constructor_run path w), Hnone.
  - intros content doc Hfile Hparse.
    by rewrite (constructor_run path w), Hfile, Hparse.
Qed.

Lemma write_property_creates doc k v :
  k ≠ "__proto__" → write_property doc k v = <[ k := v ]> doc.
Proof.
  intros Hk. unfold write_property.
  destruct (doc !! k); [done|]. by rewrite bool_decide_eq_false_2.
Qed.

Lemma write_property_other doc k v k' :
  k' ≠ k → write_property doc k v !! k' = doc !! k'.
Proof.
  intros Hk'. unfold write_property.
  destruct (doc !! k); [by rewrite lookup_insert_ne|].
  case_bool_decide; [done|]. by rewrite lookup_insert_ne.
Qed.

Lemma read_property_own doc k v : doc !! k = Some v → read_property doc k = v.
Proof. unfold read_property. by intros ->. Qed.


End manager_facts.

(** * The statements at concrete inputs *)

Section client_examples.
Import Cloudflare.

(** Primary rejected, secondary rejected: two calls, the second error out. *)
Lemma getPublicIP_fallback_witness :
  let net := mock [rejected "primary down"; rejected "secondary down"] in
  calls (@getPublicIP net example_client []).1 =
    [AxiosGet primary_url; AxiosGet secondary_url] ∧
  (@getPublicIP net example_client []).2 = inl (Error "secondary down").
Proof.
  intros net.
  destruct (@getPublicIP_fallback net example_client []) as [Hrejected _].
  destruct (Hrejected (Error "primary down") eq_refl) as (_ & Hcalls & Hsecond).
  split; [exact Hcalls|exact (Hsecond (Error "secondary down") eq_refl)].
Defined.

(** C1 as stated fails: a primary response with a malformed body ([null])
    is a failure of the primary service, yet the secondary service, which
    would have answered, is never called. *)
Lemma getPublicIP_malformed_body_no_fallback :
  let net := mock [resolved JNull; resolved (JStr "5.6.7.8")] in
  calls (@getPublicIP net example_client []).1 = [AxiosGet primary_url] ∧
  (@getPublicIP net example_client []).2 = inl (cannot_read JNull "trim").
Proof. split; reflexivity. Qed.

Lemma getPublicIP_body_witness :
  (@getPublicIP (mock [resolved JUndefined]) example_client []).2 =
    inl (cannot_read JUndefined "trim") ∧
  (@getPublicIP (mock [rejected "primary down"; resolved (JStr "")])
     example_client []).2 = inr (JStr "").
Proof.
  split.
  - destruct (@getPublicIP_body (mock [resolved JUndefined]) example_client []
                (Response JUndefined) (or_introl eq_refl)) as (Hnull & _ & _).
    exact (Hnull eq_refl).
  - destruct (@getPublicIP_body
                (mock [rejected "primary down"; resolved (JStr "")])
                example_client [] (Response (JStr ""))
                (or_intror (conj (ex_intro _ (Error "primary down") eq_refl)
                                 eq_refl))) as (_ & _ & Hempty).
    exact (Hempty eq_refl).
Defined.

(** C2 as stated fails: the request succeeds with an empty body, and
    [getPublicIP] returns (the empty string) instead of throwing. *)
Lemma getPublicIP_empty_body_returns :
  @axios (mock [resolved (JStr "")])
    [http_entry "GET: Fetching public IP address..."] (AxiosGet primary_url)
    = inr (Response (JStr "")) ∧
  (@getPublicIP (mock [resolved (JStr "")]) example_client []).2 = inr (JStr "").
Proof. split; reflexivity. Qed.

Lemma payload_reports_success l : reports_success (payload true l).
Proof. by exists (JBool true). Qed.

Lemma payload_reports_failure l : reports_failure (payload false l).
Proof. by exists (JBool false). Qed.

Lemma getRecordId_first_match_witness :
  (@getRecordId (mock [resolved (payload false [])]) example_client "z1" "sub" []).2
    = inl (Error "Failed to fetch Record ID") ∧
  (@getRecordId (mock [resolved (payload true [])]) example_client "z1" "sub" []).2
    = inr JNull ∧
  (@getRecordId (mock [resolved (payload true [JObj {[ "id" := JStr "r1" ]}])])
     example_client "z1" "sub" []).2 = inr (JStr "r1").
Proof.
  split_and!.
  - destruct (@getRecordId_first_match (mock [resolved (payload false [])])
                example_client "z1" "sub" [] _ eq_refl) as (Hfail & _ & _).
    exact (Hfail (payload_reports_failure [])).
  - destruct (@getRecordId_first_match (mock [resolved (payload true [])])
                example_client "z1" "sub" [] _ eq_refl) as (_ & Hnone & _).
    exact (Hnone (payload_reports_success []) eq_refl).
  - destruct (@getRecordId_first_match
                (mock [resolved (payload true [JObj {[ "id" := JStr "r1" ]}])])
                example_client "z1" "sub" [] _ eq_refl) as (_ & _ & Hfirst).
    exact (Hfirst {[ "id" := JStr "r1" ]} [] (payload_reports_success _) eq_refl).
Defined.

(** C3 as stated fails: the provider reports success with one match whose
    [id] is the empty string, and [getRecordId] returns [null], not that
    [id]. *)
Lemma getRecordId_empty_id_is_null :
  get_prop (JObj {[ "id" := JStr "" ]}) "id" = inr (JStr "") ∧
  (@getRecordId (mock [resolved (payload true [JObj {[ "id" := JStr "" ]}])])
     example_client "z1" "sub" []).2 = inr JNull.
Proof. split; reflexivity. Qed.

Lemma getZoneId_first_zone_witness :
  (@getZoneId (mock [resolved (payload false [])]) example_client []).2
    = inl (Error "Failed to fetch Zone ID") ∧
  (@getZoneId (mock [resolved (payload true [JObj {[ "id" := JStr "z1" ]};
                                              JObj {[ "id" := JStr "z2" ]}])])
     example_client []).2 = inr (JStr "z1").
Proof.
  split.
  - destruct (@getZoneId_first_zone (mock [resolved (payload false [])])
                example_client [] _ eq_refl) as (Hfail & _).
    exact (Hfail (payload_reports_failure [])).
  - destruct (@getZoneId_first_zone
                (mock [resolved (payload true [JObj {[ "id" := JStr "z1" ]};
                                               JObj {[ "id" := JStr "z2" ]}])])
                example_client [] _ eq_refl) as (_ & Hfirst).
    destruct (Hfirst _ _ (payload_reports_success _) eq_refl) as (_ & Hid).
    exact (Hid {[ "id" := JStr "z1" ]} (JStr "z1") eq_refl eq_refl).
Defined.

(** C4 as stated fails: the provider reports success (so not failure) with
    no zone, and [getZoneId] returns no identifier: it throws. *)
Lemma getZoneId_no_zone_throws :
  (@getZoneId (mock [resolved (payload true [])]) example_client []).2
    = inl (cannot_read JUndefined "id").
Proof. reflexivity. Qed.

Lemma getZoneId_empty_result_witness :
  (@getZoneId (mock [resolved (payload true [])]) example_client []).2
    = inl (TypeError "Cannot read properties of undefined (reading 'id')") ∧
  (@getRecordId (mock [resolved (payload true [])]) example_client "z1" "sub" []).2
    = inr JNull.
Proof.
  destruct (@getZoneId_empty_result (mock [resolved (payload true [])])
              example_client "z1" "sub" [] _
              (payload_reports_success []) eq_refl) as (Hzone & Hrecord).
  split; [exact (Hzone eq_refl)|exact (Hrecord eq_refl)].
Defined.

Lemma updateDNSRecord_request_witness :
  let this :=
    {| apiKey := "apiKey"; email := "email"; domainName := "example.com" |} in
  (@updateDNSRecord (mock [resolved (payload true [])]) this
     "z1" "r1" "sub" "1.2.3.4" []).2 = inr (payload true []) ∧
  calls (@updateDNSRecord (mock [rejected "Network error"]) this
     "z1" "r1" "sub" "1.2.3.4" []).1 =
    [ApiPut "/zones/z1/dns_records/r1"
       (JObj (<[ "type" := JStr "A" ]>
             (<[ "name" := JStr "sub.example.com" ]>
             (<[ "content" := JStr "1.2.3.4" ]>
             (<[ "ttl" := JNum 1800 ]>
             {[ "proxied" := JBool false ]})))))].
Proof.
  intros this. split.
  - destruct (@updateDNSRecord_request (mock [resolved (payload true [])]) this
                "z1" "r1" "sub" "1.2.3.4" []) as (_ & Hsuccess).
    exact (Hsuccess (payload true []) eq_refl (payload_reports_success [])).
  - reflexivity.
Defined.

(** The repository's tests of [getPublicIP], replayed on the model. *)
Example test_trims_whitespace :
  (@getPublicIP (mock [resolved (JStr ("   1.2.3.4   " +:+ String "010" ""))])
     example_client []).2 = inr (JStr "1.2.3.4").
Proof. reflexivity. Qed.

Example test_falls_back_to_ipify :
  @getPublicIP (mock [rejected "Network error"; resolved (JStr "1.2.3.4")])
    example_client [] =
  ([http_entry "GET: Fetching public IP address...";
    Called (AxiosGet "https://ipv4.icanhazip.com");
    Called (AxiosGet "https://api.ipify.org")],
   inr (JStr "1.2.3.4")).
Proof. reflexivity. Qed.

Example test_both_services_fail :
  (@getPublicIP (mock []) example_client []).2 = inl (Error "Network error").
Proof. reflexivity. Qed.

Example test_unexpected_data_from_ipify :
  (@getPublicIP (mock [rejected "Network error"; resolved JUndefined])
     example_client []).2 = inl (cannot_read JUndefined "trim").
Proof. reflexivity. Qed.

End client_examples.

Section manager_examples.
Import Config.

Lemma saveConfig_merges_witness :
  let s' := (@saveConfig reliable_fs (table_json ∅) {[ "b" := JNum 2 ]}
               example_state).1 in
  config (this s') = <[ "a" := JNum 1 ]> {[ "b" := JNum 2 ]} ∧
  files (env s') !! example_path =
    Some (render (JObj (<[ "a" := JNum 1 ]> {[ "b" := JNum 2 ]}))).
Proof.
  intros s'.
  destruct (@saveConfig_merges reliable_fs (table_json ∅) example_state
              {[ "b" := JNum 2 ]} eq_refl eq_refl)
    as (_ & Hmemory & Hdisk & _).
  split; [exact Hmemory|exact Hdisk].
Defined.

(** A failed write, then a failed rename: memory holds {a: 1, b: 2}, the
    file still holds {a: 1}. *)
Lemma saveConfig_failure_witness :
  let eacces := {| fail_error := Error "EACCES"; fail_partial := Some "{" |} in
  let exdev := {| fail_error := Error "EXDEV"; fail_partial := None |} in
  let write_fails := @saveConfig (failing_write "EACCES" (Some "{")) (table_json ∅)
                       {[ "b" := JNum 2 ]} example_state in
  let rename_fails := @saveConfig (failing_rename "EXDEV") (table_json ∅)
                        {[ "b" := JNum 2 ]} example_state in
  (write_fails.2 = inl (Error "EACCES") ∧
   config (this write_fails.1) = <[ "a" := JNum 1 ]> {[ "b" := JNum 2 ]} ∧
   files (env write_fails.1) !! example_path
     = Some (render (JObj {[ "a" := JNum 1 ]})) ∧
   logged (env write_fails.1) = [Log "error" "Failed to save config: EACCES"] ∧
   files (env write_fails.1) !! example_path
     ≠ Some (render (JObj (config (this write_fails.1))))) ∧
  (rename_fails.2 = inl (Error "EXDEV") ∧
   config (this rename_fails.1) = <[ "a" := JNum 1 ]> {[ "b" := JNum 2 ]} ∧
   files (env rename_fails.1) !! example_path
     = Some (render (JObj {[ "a" := JNum 1 ]})) ∧
   logged (env rename_fails.1) = [Log "error" "Failed to save config: EXDEV"]).
Proof.
  intros eacces exdev write_fails rename_fails. split.
  - destruct (@saveConfig_failure (failing_write "EACCES" (Some "{")) (table_json ∅)
                example_state {[ "b" := JNum 2 ]} eacces (or_introl eq_refl))
      as (Hthrown & Hlog & Hmemory & Hdisk & Hdiverged).
    split_and!; [exact Hthrown|exact Hmemory|exact Hdisk|exact Hlog|].
    apply Hdiverged; [reflexivity|discriminate].
  - destruct (@saveConfig_failure (failing_rename "EXDEV") (table_json ∅)
                example_state {[ "b" := JNum 2 ]} exdev
                (or_intror (conj eq_refl eq_refl)))
      as (Hthrown & Hlog & Hmemory & Hdisk & _).
    split_and!; [exact Hthrown|exact Hmemory|exact Hdisk|exact Hlog].
Defined.

Lemma constructor_loads_witness :
  @constructor (table_json ∅) example_path (World ∅ []) =
    (World ∅ [], inl (Error "Config file not found (ddns-config.json)")) ∧
  (@constructor (table_json {[ "{}" := ∅ ]}) example_path
     (World {[ example_path := "{}" ]} [])).2 =
    inr {| configPath := example_path; config := ∅ |}.
Proof.
  split.
  - destruct (@constructor_loads (table_json ∅) example_path (World ∅ []))
      as (Hmissing & _).
    destruct (Hmissing eq_refl) as (msg & Hrun & -> & _). exact Hrun.
  - destruct (@constructor_loads (table_json {[ "{}" := ∅ ]}) example_path
                (World {[ example_path := "{}" ]} [])) as (_ & Hfound).
    destruct (Hfound "{}" ∅ eq_refl eq_refl) as (Hloaded & _). exact Hloaded.
Defined.



End manager_examples.

(** * More facts: the rest of the code *)

(** ** What [trim] removes *)

Lemma app_cons (a : ascii) (s t : string) :
  String a s +:+ t = String a (s +:+ t).
Proof. reflexivity. Qed.

Lemma app_empty_l (s : string) : "" +:+ s = s.
Proof. reflexivity. Qed.

Lemma app_empty_r (s : string) : s +:+ "" = s.
Proof. induction s as [|a s IH]; [done|]. by rewrite app_cons, IH. Qed.

Lemma all_white_app (s t : string) :
  all_white (s +:+ t) = all_white s && all_white t.
Proof.
  induction s as [|a s IH]; [done|].
  rewrite app_cons. cbn [all_white]. by rewrite IH, andb_assoc.
Qed.

Lemma trimStart_decomposition (s : string) :
  ∃ l, s = l +:+ trimStart s ∧ all_white l = true ∧
       starts_white (trimStart s) = false.
Proof.
  induction s as [|a s (l & Hs & Hl & Hstart)]; [by exists ""|].
  cbn [trimStart]. destruct (is_white_space a) eqn:Ha.
  - exists (String a l). rewrite app_cons, <-Hs. cbn [all_white].
    by rewrite Ha, Hl.
  - exists "". by cbn [starts_white].
Qed.

Lemma trimEnd_decomposition (s : string) :
  ∃ r, s = trimEnd s +:+ r ∧ all_white r = true ∧
       ends_white (trimEnd s) = false.
Proof.
  induction s as [|a s (r & Hs & Hr & Hend)]; [by exists ""|].
  cbn [trimEnd]. destruct (trimEnd s) as [|b t] eqn:Htrim.
  - rewrite app_empty_l in Hs. subst r.
    destruct (is_white_space a) eqn:Ha.
    + exists (String a s). cbn [all_white]. by rewrite Ha, Hr.
    + exists s. cbn [ends_white]. by rewrite Ha.
  - exists r. rewrite app_cons, <-Hs. done.
Qed.

Lemma trimEnd_starts (s : string) :
  starts_white s = false → starts_white (trimEnd s) = false.
Proof.
  destruct s as [|a s]; [done|]. cbn [starts_white trimEnd]. intros Ha.
  destruct (trimEnd s); [by rewrite Ha|done].
Qed.

Lemma trimStart_fixed (s : string) : starts_white s = false → trimStart s = s.
Proof. destruct s as [|a s]; [done|]. cbn. by intros ->. Qed.

Lemma trimEnd_fixed (s : string) : ends_white s = false → trimEnd s = s.
Proof.
  induction s as [|a s IH]; [done|]. destruct s as [|b t].
  - cbn. by intros ->.
  - intros Hend. specialize (IH Hend). cbn [trimEnd] in *. by rewrite IH.
Qed.

Lemma trimStart_all_white (s : string) : all_white s = true → trimStart s = "".
Proof.
  induction s as [|a s IH]; [done|]. cbn.
  intros [-> Hs]%andb_true_iff. auto.
Qed.

(** [trim] strips white space from both ends and nothing else. *)
Lemma trim_decomposition (s : string) :
  ∃ l r, s = l +:+ trim s +:+ r ∧ all_white l = true ∧ all_white r = true ∧
         starts_white (trim s) = false ∧ ends_white (trim s) = false.
Proof.
  destruct (trimStart_decomposition s) as (l & Hs & Hl & Hstart).
  destruct (trimEnd_decomposition (trimStart s)) as (r & Ht & Hr & Hend).
  exists l, r. unfold trim. rewrite <-Ht. split_and!; try done.
  by apply trimEnd_starts.
Qed.

Lemma trim_fixed (s : string) :
  starts_white s = false → ends_white s = false → trim s = s.
Proof.
  intros Hstart Hend. unfold trim. rewrite (trimStart_fixed _ Hstart).
  by apply trimEnd_fixed.
Qed.

Lemma trim_empty_iff (s : string) : trim s = "" ↔ all_white s = true.
Proof.
  split.
  - intros Htrim. destruct (trim_decomposition s) as (l & r & Hs & Hl & Hr & _).
    rewrite Hs, Htrim, app_empty_l, all_white_app. by rewrite Hl, Hr.
  - intros Hs. unfold trim. by rewrite (trimStart_all_white _ Hs).
Qed.

(** ** More on the client *)

Section client_more.
Import Cloudflare.
Context {net : Axios}.

(** A run of [getPublicIP] that returns read the body of the service that
    answered. *)
Lemma getPublicIP_answer this tr v :
  (getPublicIP this tr).2 = inr v →
  let tr1 := tr ++ [http_entry "GET: Fetching public IP address..."] in
  let tr2 := tr1 ++ [Called (AxiosGet primary_url)] in
  ∃ resp,
    (axios tr1 (AxiosGet primary_url) = inr resp ∨
     (∃ e, axios tr1 (AxiosGet primary_url) = inl e) ∧
     axios tr2 (AxiosGet secondary_url) = inr resp) ∧
    call_trim "response.data" (data resp) = inr v.
Proof.
  intros Hret tr1 tr2.
  destruct (axios tr1 (AxiosGet primary_url)) as [e|resp] eqn:Hp.
  - rewrite (getPublicIP_primary_rejected _ _ _ Hp) in Hret. cbn [snd] in Hret.
    unfold tr2, tr1. rewrite <-app_assoc. cbn [app].
    destruct (axios _ (AxiosGet secondary_url)) as [e2|resp]; [done|].
    exists resp. eauto.
  - rewrite (getPublicIP_primary_resolved _ _ _ Hp) in Hret. eauto.
Qed.

(** X1: whenever [getPublicIP] returns, the service that answered sent a
    string and the result is a string; where that body is ASCII, the result
    is the body without the white space (TAB, LF, VT, FF, CR, SP) at its two
    ends: nothing else is removed, and the result neither starts nor ends
    with white space. *)
Theorem getPublicIP_returns_trimmed this tr v :
  (getPublicIP this tr).2 = inr v →
  let tr1 := tr ++ [http_entry "GET: Fetching public IP address..."] in
  let tr2 := tr1 ++ [Called (AxiosGet primary_url)] in
  ∃ resp body t,
    (axios tr1 (AxiosGet primary_url) = inr resp ∨
     (∃ e, axios tr1 (AxiosGet primary_url) = inl e) ∧
     axios tr2 (AxiosGet secondary_url) = inr resp) ∧
    data resp = JStr body ∧ v = JStr t ∧
    (is_ascii body = true →
     ∃ l r, body = l +:+ t +:+ r ∧
            all_white l = true ∧ all_white r = true ∧
            starts_white t = false ∧ ends_white t = false).
Proof.
  intros Hret tr1 tr2.
  destruct (getPublicIP_answer _ _ _ Hret) as (resp & Hresp & Htrim).
  apply call_trim_returns in Htrim as (body & Hbody & ->).
  exists resp, body, (trim body). split_and!; [done..|]. intros _.
  destruct (trim_decomposition body) as (l & r & Hs & Hl & Hr & Hstart & Hend).
  by exists l, r.
Qed.

(** What [getPublicIP] returns is a string: [main] may pass it on as one. *)
Lemma getPublicIP_returns_string this tr v :
  (getPublicIP this tr).2 = inr v → v = JStr (to_string v).
Proof.
  intros Hret. destruct (getPublicIP_answer _ _ _ Hret) as (resp & _ & Htrim).
  by apply call_trim_returns in Htrim as (body & _ & ->).
Qed.

Lemma getZoneId_trace this tr :
  (getZoneId this tr).1 =
  tr ++ [http_entry "GET: Fetching Zone ID..."; Called (zones_request this)].
Proof.
  unfold getZoneId. rewrite logged_call_run.
  destruct (axios _ _) as [e|r]; [done|]. rewrite bind_lift.
  destruct (get_prop (data r) "success") as [e|s]; [done|].
  destruct (truthy s); cbn [negb]; [|done].
  rewrite bind_lift. destruct (get_prop (data r) "result") as [e|l]; [done|].
  rewrite bind_lift. by destruct (get_index l 0).
Qed.

Lemma getRecordId_trace this zoneId subdomain tr :
  (getRecordId this zoneId subdomain tr).1 =
  tr ++ [http_entry "GET: Fetching Record ID...";
         Called (records_request this zoneId subdomain)].
Proof.
  unfold getRecordId. rewrite logged_call_run.
  destruct (axios _ _) as [e|r]; [done|]. rewrite bind_lift.
  destruct (get_prop (data r) "success") as [e|s]; [done|].
  destruct (truthy s); cbn [negb]; [|done].
  rewrite bind_lift. destruct (get_prop (data r) "result") as [e|l]; [done|].
  rewrite bind_lift. destruct (get_index l 0) as [e|z]; [done|].
  rewrite bind_lift. by destruct (get_prop_opt z "id").
Qed.

(** X2: whatever the provider answers, [getZoneId] logs once and then makes
    exactly one request, for the zones named as the configured domain, and
    nothing after it; when that request is rejected, the rejection is the
    outcome, unchanged. *)
Theorem getZoneId_one_request this tr :
  let entry := http_entry "GET: Fetching Zone ID..." in
  (getZoneId this tr).1 =
    tr ++ [entry; Called (ApiGet "/zones"
                            (JObj {[ "name" := JStr (domainName this) ]}))] ∧
  (∀ e, axios (tr ++ [entry]) (zones_request this) = inl e →
        (getZoneId this tr).2 = inl e).
Proof.
  intros entry. split; [apply getZoneId_trace|].
  intros e Hax. unfold getZoneId. rewrite logged_call_run.
  fold entry. by rewrite Hax.
Qed.

(** X3: whatever the provider answers, [getRecordId] logs once and then
    makes exactly one request, for the records of type "A" named
    subdomain.domainName in the given zone, and nothing after it; when that
    request is rejected, the rejection is the outcome, unchanged. *)
Theorem getRecordId_one_request this zoneId subdomain tr :
  let entry := http_entry "GET: Fetching Record ID..." in
  (∃ params,
     (getRecordId this zoneId subdomain tr).1 =
       tr ++ [entry; Called (ApiGet ("/zones/" +:+ zoneId +:+ "/dns_records")
                                    (JObj params))] ∧
     dom params = {[ "type"; "name" ]} ∧
     params !! "type" = Some (JStr "A") ∧
     params !! "name" = Some (JStr (subdomain +:+ "." +:+ domainName this))) ∧
  (∀ e, axios (tr ++ [entry]) (records_request this zoneId subdomain) = inl e →
        (getRecordId this zoneId subdomain tr).2 = inl e).
Proof.
  intros entry. split.
  - eexists. split; [apply getRecordId_trace|]. split_and!.
    + rewrite dom_insert_L, dom_singleton_L. set_solver.
    + apply lookup_insert_eq.
    + rewrite lookup_insert_ne by done. apply lookup_singleton_eq.
  - intros e Hax. unfold getRecordId. rewrite logged_call_run.
    fold entry. by rewrite Hax.
Qed.

(** X4: what [getRecordId] returns is [null] or truthy, never a falsy
    identifier: the caller's test [!recordId] holds exactly for [null]. *)
Theorem getRecordId_null_or_truthy this zoneId subdomain tr v :
  (getRecordId this zoneId subdomain tr).2 = inr v →
  v = JNull ∨ truthy v = true.
Proof.
  unfold getRecordId. rewrite logged_call_run.
  destruct (axios _ _) as [e|r]; [done|]. rewrite bind_lift.
  destruct (get_prop (data r) "success") as [e|s]; [done|].
  destruct (truthy s); cbn [negb]; [|done].
  rewrite bind_lift. destruct (get_prop (data r) "result") as [e|l]; [done|].
  rewrite bind_lift. destruct (get_index l 0) as [e|z]; [done|].
  rewrite bind_lift. destruct (get_prop_opt z "id") as [e|id]; [done|].
  rewrite ret_run. cbn [snd]. intros [= <-]. unfold js_or.
  destruct (truthy id) eqn:Hid; auto.
Qed.

(** X5: the outcomes of [updateDNSRecord] that are no success.  A rejected
    request is the outcome, unchanged; a payload that reports failure gives
    Error("Failed to update DNS record"); in both cases nothing is logged
    after the request.  The entry "DNS record updated successfully." is
    written exactly when the call returns. *)
Theorem updateDNSRecord_outcomes this zoneId recordId subdomain publicIP tr :
  let entry := http_entry ("PUT: Updating DNS record for " +:+ subdomain +:+
                           " to IP: " +:+ publicIP) in
  let req := update_request this zoneId recordId subdomain publicIP in
  let run := updateDNSRecord this zoneId recordId subdomain publicIP tr in
  (∀ e, axios (tr ++ [entry]) req = inl e →
        run = (tr ++ [entry; Called req], inl e)) ∧
  (∀ d, axios (tr ++ [entry]) req = inr (Response d) → reports_failure d →
        run = (tr ++ [entry; Called req],
               inl (Error "Failed to update DNS record"))) ∧
  ((∃ v, run.2 = inr v) ↔
   run.1 = tr ++ [entry; Called req;
                  http_entry "DNS record updated successfully."]).
Proof.
  intros entry req run. unfold run, updateDNSRecord. rewrite logged_call_run.
  fold entry req. split_and!.
  - by intros e ->.
  - intros d -> (s & Hsucc & Hs). rewrite bind_lift. cbn [data].
    by rewrite Hsucc, Hs.
  - assert (∀ l : trace, tr ++ [entry; Called req] ≠ tr ++ [entry; Called req] ++ l
                          ∨ l = []) as Hsame.
    { intros [|x l]; [by right|left]. intros Heq%(f_equal length).
      rewrite !length_app in Heq. cbn in Heq. lia. }
    assert (tr ++ [entry; Called req] ≠
            tr ++ [entry; Called req;
                   http_entry "DNS record updated successfully."]) as Hne.
    { by destruct (Hsame [http_entry "DNS record updated successfully."]). }
    destruct (axios _ _) as [e|r]; cbn [fst snd].
    { split; [by intros [? ?]|done]. }
    rewrite bind_lift. destruct (get_prop (data r) "success") as [e|s].
    { split; [by intros [? ?]|done]. }
    destruct (truthy s); cbn [negb].
    + rewrite bind_run. cbn [logger_http]. rewrite ret_run. cbn [fst snd].
      rewrite <-app_assoc. cbn [app]. split; [done|eauto].
    + rewrite throw_run. split; [by intros [? ?]|done].
Qed.

(** X6: a response without a body ([undefined] or [null] as data) makes each
    provider method throw the TypeError of reading [success], not the
    method's own error. *)
Theorem provider_empty_payload this zoneId recordId subdomain publicIP tr d :
  nullish d = true →
  (axios (tr ++ [http_entry "GET: Fetching Zone ID..."]) (zones_request this)
     = inr (Response d) →
   (getZoneId this tr).2 = inl (cannot_read d "success")) ∧
  (axios (tr ++ [http_entry "GET: Fetching Record ID..."])
         (records_request this zoneId subdomain) = inr (Response d) →
   (getRecordId this zoneId subdomain tr).2 = inl (cannot_read d "success")) ∧
  (axios (tr ++ [http_entry ("PUT: Updating DNS record for " +:+ subdomain +:+
                             " to IP: " +:+ publicIP)])
         (update_request this zoneId recordId subdomain publicIP)
     = inr (Response d) →
   (updateDNSRecord this zoneId recordId subdomain publicIP tr).2
     = inl (cannot_read d "success")).
Proof.
  intros Hd.
  assert (get_prop d "success" = inl (cannot_read d "success")) as Hread
    by by destruct d.
  split_and!; intros Hax.
  - by rewrite (getZoneId_resolved _ _ _ Hax), Hread.
  - by rewrite (getRecordId_resolved _ _ _ _ _ Hax), Hread.
  - unfold updateDNSRecord. rewrite logged_call_run, Hax, bind_lift.
    cbn [data]. by rewrite Hread.
Qed.

End client_more.

(** ** The logger factory *)

Section logger_facts.
Import Logger.

(** The test on the path, read on the shape of the value. *)
Lemma path_test (v : jsval) :
  negb (truthy v) || negb (bool_decide (typeof v = "string")) || trims_to_empty v
  = match v with
    | JStr path => all_white path
    | _ => true
    end.
Proof.
  destruct v as [| |b|n|path|l|m|name]; try done.
  - by destruct b.
  - cbn. by destruct (n =? 0)%Z.
  - assert (bool_decide (trim path = "") = all_white path) as Htrim.
    { destruct (all_white path) eqn:Hw.
      - by apply bool_decide_eq_true_2, trim_empty_iff.
      - apply bool_decide_eq_false_2. intros Ht%trim_empty_iff. congruence. }
    destruct path as [|a path]; [done|].
    cbn [truthy negb orb typeof trims_to_empty].
    by rewrite bool_decide_eq_true_2 by done.
  - cbn [truthy negb orb trims_to_empty]. rewrite orb_false_r.
    apply negb_true_iff, bool_decide_eq_false_2.
    unfold typeof. by repeat case_match.
Qed.

(** X7: for a path that is not a string or is a string of ASCII
    characters, [createLogger] returns exactly when the path is a string
    with a character that is no white space and the level is left out or is
    one of the six names, spelled as they are; the logger then has that level
    (or "info"), on the console and on the file at that path. *)
Theorem createLogger_accepts logPath logLevel o :
  (∀ path, logPath = JStr path → is_ascii path = true) →
  (createLogger logPath logLevel = inr o ↔
   ∃ path l,
     logPath = JStr path ∧ all_white path = false ∧
     (logLevel = JUndefined ∧ l = "info" ∨
      logLevel = JStr l ∧ l ∈ validLogLevels) ∧
     o = {| level := l; transports := [Console l; File l path] |}).
Proof.
  intros _. unfold createLogger. rewrite path_test. split.
  - destruct logPath as [| | | |path| | |]; try done.
    destruct (all_white path) eqn:Hwhite; [done|].
    destruct logLevel as [| | | |l| | |]; try done.
    + intros [= <-]. exists path, "info". split_and!; [done|done|by left|done].
    + cbn [is_valid_level]. case_bool_decide as Hl; [|done].
      intros [= <-]. exists path, l. split_and!; [done|done|by right|done].
  - intros (path & l & -> & -> & Hlevel & ->).
    destruct Hlevel as [[-> ->]|[-> Hl]]; [done|].
    cbn [is_valid_level]. by rewrite bool_decide_eq_true_2.
Qed.

(** X8: how [createLogger] refuses.  A path that is no string, or a string
    of white space only (the empty one too), gives Error("logPath must be a
    non-empty string") whatever the level is; with a path of ASCII
    characters, one of them no white space, a level that is given and is
    none of the six names gives the error that lists them. *)
Theorem createLogger_rejects logPath logLevel :
  ((∀ path, logPath = JStr path → all_white path = true) →
   createLogger logPath logLevel
     = inl (Error "logPath must be a non-empty string")) ∧
  (∀ path, logPath = JStr path → is_ascii path = true →
     all_white path = false →
     logLevel ≠ JUndefined →
     (∀ l, logLevel = JStr l → l ∉ validLogLevels) →
     createLogger logPath logLevel
       = inl (Error "Invalid log level. Must be one of: error, warn, info, http, verbose, debug")).
Proof.
  unfold createLogger. rewrite path_test. split.
  - intros Hbad. destruct logPath as [| | | |path| | |]; try done.
    by rewrite (Hbad path).
  - intros path -> _ -> Hgiven Hlevel.
    destruct logLevel as [| | | |l| | |]; try done.
    cbn [is_valid_level]. by rewrite bool_decide_eq_false_2 by (by apply Hlevel).
Qed.

End logger_facts.

(** ** More on the configuration manager *)

Section manager_more.
Import Config.
Context {fs : Fs} {json : Json}.

Lemma saveConfig_memory p s :
  this (saveConfig p s).1 =
  {| configPath := configPath (this s); config := p ∪ config (this s) |}.
Proof. rewrite saveConfig_run. cbv zeta. by rewrite persist_this. Qed.

(** X9: [saveConfig] returns normally exactly when neither the write of the
    temporary file nor the rename fails. *)
Theorem saveConfig_succeeds_iff s p :
  let path := configPath (this s) in
  let tmp := path +:+ ".tmp" in
  let content := JSON_stringify (p ∪ config (this s)) in
  (saveConfig p s).2 = inr () ↔
  fs_fault (files (env s)) (WriteFile tmp content) = None ∧
  fs_fault (<[ tmp := content ]> (files (env s))) (Rename tmp path) = None.
Proof.
  intros path tmp content. rewrite saveConfig_run, persist_run. cbv zeta.
  cbn [this env files logged config configPath]. fold path tmp content.
  destruct (fs_fault (files (env s)) _) as [f|]; [by split; [|intros []]|].
  destruct (fs_fault _ (Rename tmp path)) as [f|]; [by split; [|intros []]|].
  done.
Qed.

(** X10: [saveConfig] touches two paths only, the configured one and its
    ".tmp" sibling: every other file is as before, however the call ends,
    and the call appends exactly one entry to the log. *)
Theorem saveConfig_frame s p other :
  other ≠ configPath (this s) →
  other ≠ configPath (this s) +:+ ".tmp" →
  let s' := (saveConfig p s).1 in
  files (env s') !! other = files (env s) !! other ∧
  ∃ entry, logged (env s') = logged (env s) ++ [entry].
Proof.
  intros Hpath Htmp s'. unfold s'. rewrite saveConfig_run, persist_run.
  cbv zeta. cbn [this env files logged config configPath].
  destruct (fs_fault (files (env s)) _) as [f|];
    cbn [fst this env files logged].
  { split; [|by eauto]. destruct (fail_partial f); [|done].
    by rewrite lookup_insert_ne. }
  destruct (fs_fault _ (Rename _ _)) as [f|]; cbn [fst this env files logged].
  { split; [|by eauto]. by rewrite lookup_insert_ne. }
  split; [|by eauto].
  by rewrite lookup_insert_ne, lookup_delete_ne, lookup_insert_ne.
Qed.

(** X11: a failed save cleans nothing up.  When the rename fails, the
    temporary file stays, holding the new serialised document; when the
    write fails, the temporary file holds what the write left of it. *)
Theorem saveConfig_leaves_temp s p f :
  let path := configPath (this s) in
  let tmp := path +:+ ".tmp" in
  let content := JSON_stringify (p ∪ config (this s)) in
  let s' := (saveConfig p s).1 in
  (fs_fault (files (env s)) (WriteFile tmp content) = None →
   fs_fault (<[ tmp := content ]> (files (env s))) (Rename tmp path) = Some f →
   files (env s') !! tmp = Some content) ∧
  (fs_fault (files (env s)) (WriteFile tmp content) = Some f →
   files (env s') !! tmp =
     match fail_partial f with
     | Some part => Some part
     | None => files (env s) !! tmp
     end).
Proof.
  intros path tmp content s'. unfold s'. rewrite saveConfig_run, persist_run.
  cbv zeta. cbn [this env files logged config configPath].
  fold path tmp content. split.
  - intros -> ->. cbn [fst this env files]. apply lookup_insert_eq.
  - intros ->. cbn [fst this env files].
    destruct (fail_partial f); [apply lookup_insert_eq|done].
Qed.

(** X12: in memory, saves accumulate whether or not they reach the disk:
    after [saveConfig p] and then [saveConfig q] the manager holds
    [q ∪ (p ∪ d)], however the two calls end; saving the same map twice, or
    the empty map, changes nothing more. *)
Theorem saveConfig_compose s p q :
  let d := config (this s) in
  config (this (saveConfig q (saveConfig p s).1).1) = q ∪ (p ∪ d) ∧
  config (this (saveConfig p (saveConfig p s).1).1)
    = config (this (saveConfig p s).1) ∧
  config (this (saveConfig ∅ s).1) = d ∧
  configPath (this (saveConfig q (saveConfig p s).1).1) = configPath (this s).
Proof.
  intros d. rewrite !saveConfig_memory. cbn [config configPath]. fold d.
  split_and!; [done| |apply (left_id_L ∅ (∪))|done].
  by rewrite (assoc_L (∪)), (idemp_L (∪)).
Qed.

(** What [set] does at once, and the promise it leaves. *)
Lemma set_run s k v :
  let path := configPath (this s) in
  let doc := write_property (config (this s)) k v in
  set k v s =
  (State {| configPath := path; config := doc |} (env s),
   inr (persist (path +:+ ".tmp") (JSON_stringify doc) path)).
Proof.
  intros path doc.
  unfold set, saveConfig_call, get_this, assign_config, mbind, mret, M_bind,
    M_ret.
  cbn [this env config configPath]. fold path doc. by rewrite (idemp_L (∪)).
Qed.

(** X13: [set k v] changes the one key.  For [k] other than "__proto__" the
    document becomes the old one with [k] bound to [v], and of two [set]s of
    [k] the later one is read; whatever [k] is, every other key keeps its
    own property and [get] of it returns what it returned before; and
    [set("__proto__", v)] on a document with no such property of its own
    leaves the document as it is. *)
Theorem set_frame s k v :
  (k ≠ "__proto__" →
   config (this (set k v s).1) = <[ k := v ]> (config (this s)) ∧
   ∀ v', (get k (set k v' (set k v s).1).1).2 = inr v') ∧
  (∀ k', k' ≠ k →
     config (this (set k v s).1) !! k' = config (this s) !! k' ∧
     (get k' (set k v s).1).2 = (get k' s).2) ∧
  (k = "__proto__" → config (this s) !! k = None →
   config (this (set k v s).1) = config (this s)).
Proof.
  assert (∀ s0 k0 v0,
            config (this (set k0 v0 s0).1) = write_property (config (this s0)) k0 v0)
    as Hset by (intros; by rewrite set_run).
  assert (∀ s0 k0, (get k0 s0).2 = inr (read_property (config (this s0)) k0))
    as Hget by done.
  split_and!.
  - intros Hk. rewrite Hset, (write_property_creates _ _ _ Hk). split; [done|].
    intros v'. rewrite Hget, Hset, (write_property_creates _ _ _ Hk).
    by rewrite (read_property_own _ _ v') by apply lookup_insert_eq.
  - intros k' Hk'. rewrite !Hget, Hset. unfold read_property.
    by rewrite (write_property_other _ _ _ _ Hk').
  - intros -> Hnone. rewrite Hset. unfold write_property. by rewrite Hnone.
Qed.

(** X14: the round trip through the file, for a key other than
    "__proto__".  After [set k v], once the pending save has run without a
    failure, no temporary file is left and a manager constructed anew from
    the same path reads [v] at [k], provided the parser reads back what the
    serialiser wrote. *)
Theorem set_persist_reload s k v :
  k ≠ "__proto__" →
  let path := configPath (this s) in
  let tmp := path +:+ ".tmp" in
  let doc := <[ k := v ]> (config (this s)) in
  let content := JSON_stringify doc in
  fs_fault (files (env s)) (WriteFile tmp content) = None →
  fs_fault (<[ tmp := content ]> (files (env s))) (Rename tmp path) = None →
  JSON_parse content = inr doc →
  ∃ promise,
    (set k v s).2 = inr promise ∧
    let saved := promise (set k v s).1 in
    saved.2 = inr () ∧
    files (env saved.1) !! tmp = None ∧
    ∃ reloaded w,
      constructor path (env saved.1) = (w, inr reloaded) ∧
      config reloaded = doc ∧
      (get k (State reloaded w)).2 = inr v.
Proof.
  intros Hk path tmp doc content Hwrite Hrename Hparse.
  rewrite set_run. cbv zeta. rewrite (write_property_creates _ _ _ Hk).
  fold path tmp doc content.
  eexists. split; [reflexivity|]. cbn [fst].
  rewrite persist_run. cbv zeta. cbn [this env files logged config configPath].
  rewrite Hwrite, Hrename.
  cbn [fst snd this env files logged]. split_and!; [done| |].
  - rewrite lookup_insert_ne by (symmetry; apply tmp_path_differs).
    apply lookup_delete_eq.
  - rewrite constructor_run. cbn [files logged].
    rewrite lookup_insert_eq, Hparse. do 2 eexists. split; [reflexivity|].
    split; [done|]. unfold get. rewrite bind_run. cbn [get_this].
    rewrite ret_run. cbn [snd this config]. unfold doc.
    by rewrite (read_property_own _ _ v) by apply lookup_insert_eq.
Qed.

(** X15: construction writes nothing, whatever it finds; a file that does
    not parse makes it fail with the parser's error, after the entry
    "Loading config from ..." was logged. *)
Theorem constructor_never_writes path w :
  files (constructor path w).1 = files w ∧
  (∀ content e,
     files w !! path = Some content → JSON_parse content = inl e →
     constructor path w =
       (World (files w)
              (logged w ++ [Log "info" ("Loading config from " +:+ path)]),
        inl e)).
Proof.
  rewrite constructor_run. split.
  - by destruct (files w !! path).
  - by intros content e -> ->.
Qed.

End manager_more.

(** ** The run *)

Section main_facts.
Import Cloudflare Config Main.
Context {net : Axios} {fs : Fs} {json : Json}.

Lemma client_run {A} (m : M trace A) (a : app) :
  client m a = (App (m (network a)).1 (manager a) (floating a), (m (network a)).2).
Proof. unfold client. by destruct (m (network a)). Qed.

Lemma configManager_get_run key a :
  configManager_get key a =
  (App (network a) (manager a) (floating a),
   inr (read_property (config (this (manager a))) key)).
Proof. reflexivity. Qed.

(** A key that is no member of [Object.prototype], as the two [main] reads,
    is read from the document alone. *)
Lemma read_property_plain doc key :
  key ∉ Object_prototype →
  read_property doc key = default JUndefined (doc !! key).
Proof.
  intros Hkey. unfold read_property. destruct (doc !! key); [done|].
  by rewrite bool_decide_eq_false_2.
Qed.

Lemma recordId_plain : "recordId" ∉ Object_prototype.
Proof. compute_done. Qed.


(** The [try] block when the address cannot be fetched. *)
Lemma main_try_after_ip cloudflare SUBDOMAIN a e :
  (getPublicIP cloudflare (network a)).2 = inl e →
  main_try cloudflare SUBDOMAIN a =
  (App (getPublicIP cloudflare (network a)).1 (manager a) (floating a), inl e).
Proof.
  intros Hip. unfold main_try. rewrite bind_run, client_run.
  by rewrite Hip.
Qed.

(** X17: when the public address cannot be fetched, the run stops there:
    the error is logged, no request goes to the provider, nothing is cached
    and no save is started. *)
Theorem main_ip_failure cloudflare SUBDOMAIN a e :
  (getPublicIP cloudflare (network a)).2 = inl e →
  let tr1 := (getPublicIP cloudflare (network a)).1 in
  main cloudflare SUBDOMAIN a =
  (App (tr1 ++ [Logged (Log "error" ("Error: " +:+ err_message e))])
       (manager a) (floating a),
   inr ()).
Proof.
  intros Hip tr1. unfold main.
  by rewrite try_catch_run, (main_try_after_ip _ _ _ _ Hip).
Qed.


(** X19: with the zone cached and no record cached, a lookup that finds no
    record ends the run: "Error: DNS record not found. Please create it
    first." is logged, no PUT is sent, nothing is cached and no save is
    started. *)
Theorem main_record_missing cloudflare SUBDOMAIN a tr1 ip z tr3 found :
  getPublicIP cloudflare (network a) = (tr1, inr ip) →
  config (this (manager a)) !! "zoneId" = Some z → truthy z = true →
  truthy (default JUndefined (config (this (manager a)) !! "recordId")) = false →
  getRecordId cloudflare (to_string z) SUBDOMAIN
    (tr1 ++ [Logged (Log "info" ("Current Public IP: " +:+ to_string ip))])
    = (tr3, inr found) →
  truthy found = false →
  main cloudflare SUBDOMAIN a =
  (App (tr3 ++ [Logged (Log "error"
                  "Error: DNS record not found. Please create it first.")])
       (manager a) (floating a),
   inr ()).
Proof.
  intros Hip Hz Htz Hr Hrecord Hfound.
  unfold main. rewrite try_catch_run.
  unfold main_try. rewrite bind_run, client_run, Hip. cbn [fst snd].
  rewrite bind_run. cbn [logger_log network manager floating].
  rewrite bind_run, configManager_get_run. cbn [network manager floating].
  rewrite (read_property_own _ _ _ Hz), Htz. cbn [negb].
  rewrite bind_run, ret_run, bind_run, configManager_get_run.
  cbn [network manager floating].
  rewrite (read_property_plain _ _ recordId_plain), Hr. cbn [negb].
  rewrite bind_run, bind_run, client_run. cbn [network manager floating].
  rewrite Hrecord. cbn [fst snd]. rewrite Hfound. cbn [negb].
  by rewrite throw_run.
Qed.

End main_facts.

(** * More statements at concrete inputs *)

Section more_client_examples.
Import Cloudflare.

Lemma getPublicIP_returns_trimmed_witness :
  ∃ l r,
    "  5.6.7.8 " +:+ String "010" "" = l +:+ "5.6.7.8" +:+ r ∧
    all_white l = true ∧ all_white r = true.
Proof.
  destruct (@getPublicIP_returns_trimmed
              (mock [rejected "primary down";
                     resolved (JStr ("  5.6.7.8 " +:+ String "010" ""))])
              example_client [] (JStr "5.6.7.8") eq_refl)
    as (resp & body & t & [Hprimary|[_ Hsecondary]] & Hbody & Ht & Hascii).
  - discriminate Hprimary.
  - injection Hsecondary as <-. injection Hbody as <-. injection Ht as <-.
    destruct (Hascii eq_refl) as (l & r & Hsplit & Hl & Hr & _).
    exists l, r. eauto.
Defined.

Lemma getZoneId_one_request_witness :
  @getZoneId (mock [rejected "Network error"]) example_client [] =
  ([http_entry "GET: Fetching Zone ID...";
    Called (ApiGet "/zones" (JObj {[ "name" := JStr "example.com" ]}))],
   inl (Error "Network error")).
Proof.
  destruct (@getZoneId_one_request (mock [rejected "Network error"])
              example_client []) as (Htrace & Hrejected).
  rewrite (surjective_pairing (getZoneId _ _)).
  by rewrite Htrace, (Hrejected (Error "Network error") eq_refl).
Defined.

Lemma getRecordId_one_request_witness :
  (@getRecordId (mock [rejected "Network error"]) example_client "z1" "sub" []).2
  = inl (Error "Network error").
Proof.
  destruct (@getRecordId_one_request (mock [rejected "Network error"])
              example_client "z1" "sub" []) as (_ & Hrejected).
  exact (Hrejected (Error "Network error") eq_refl).
Defined.

Lemma getRecordId_null_or_truthy_witness :
  JStr "r1" = JNull ∨ truthy (JStr "r1") = true.
Proof.
  exact (@getRecordId_null_or_truthy
           (mock [resolved (payload true [JObj {[ "id" := JStr "r1" ]}])])
           example_client "z1" "sub" [] (JStr "r1") eq_refl).
Defined.

Lemma updateDNSRecord_outcomes_witness :
  (@updateDNSRecord (mock [rejected "Network error"]) example_client
     "z1" "r1" "sub" "1.2.3.4" []).2 = inl (Error "Network error") ∧
  (@updateDNSRecord (mock [resolved (payload false [])]) example_client
     "z1" "r1" "sub" "1.2.3.4" []).2 = inl (Error "Failed to update DNS record").
Proof.
  split.
  - destruct (@updateDNSRecord_outcomes (mock [rejected "Network error"])
                example_client "z1" "r1" "sub" "1.2.3.4" [])
      as (Hrejected & _ & _).
    by rewrite (Hrejected (Error "Network error") eq_refl).
  - destruct (@updateDNSRecord_outcomes (mock [resolved (payload false [])])
                example_client "z1" "r1" "sub" "1.2.3.4" [])
      as (_ & Hfailure & _).
    by rewrite (Hfailure (payload false []) eq_refl (payload_reports_failure [])).
Defined.

Lemma provider_empty_payload_witness :
  (@getZoneId (mock [resolved JUndefined]) example_client []).2
    = inl (TypeError "Cannot read properties of undefined (reading 'success')") ∧
  (@getRecordId (mock [resolved JNull]) example_client "z1" "sub" []).2
    = inl (TypeError "Cannot read properties of null (reading 'success')").
Proof.
  split.
  - destruct (@provider_empty_payload (mock [resolved JUndefined]) example_client
                "z1" "r1" "sub" "1.2.3.4" [] JUndefined eq_refl) as (Hzone & _).
    exact (Hzone eq_refl).
  - destruct (@provider_empty_payload (mock [resolved JNull]) example_client
                "z1" "r1" "sub" "1.2.3.4" [] JNull eq_refl) as (_ & Hrecord & _).
    exact (Hrecord eq_refl).
Defined.

End more_client_examples.

Section logger_examples.
Import Logger.

Lemma createLogger_accepts_witness :
  createLogger (JStr "./nimbus-ddns.log") JUndefined =
  inr {| level := "info";
         transports := [Console "info"; File "info" "./nimbus-ddns.log"] |}.
Proof.
  apply createLogger_accepts; [by intros path [= <-]|].
  exists "./nimbus-ddns.log", "info".
  split_and!; [done|done|by left|done].
Defined.

(** An empty path with a bad level: the path is what is reported.  A good
    path with the level [null], or "INFO": the level is reported. *)
Lemma createLogger_rejects_witness :
  createLogger (JStr "   ") (JStr "loud")
    = inl (Error "logPath must be a non-empty string") ∧
  createLogger (JStr "a.log") JNull
    = inl (Error "Invalid log level. Must be one of: error, warn, info, http, verbose, debug") ∧
  createLogger (JStr "a.log") (JStr "INFO")
    = inl (Error "Invalid log level. Must be one of: error, warn, info, http, verbose, debug").
Proof.
  split_and!.
  - destruct (createLogger_rejects (JStr "   ") (JStr "loud")) as (Hpath & _).
    apply Hpath. by intros path [= <-].
  - destruct (createLogger_rejects (JStr "a.log") JNull) as (_ & Hlevel).
    by apply (Hlevel "a.log").
  - destruct (createLogger_rejects (JStr "a.log") (JStr "INFO")) as (_ & Hlevel).
    apply (Hlevel "a.log"); [done..|]. intros l [= <-]. compute_done.
Defined.

End logger_examples.

Section more_manager_examples.
Import Config.

Lemma saveConfig_succeeds_iff_witness :
  (@saveConfig reliable_fs (table_json ∅) {[ "b" := JNum 2 ]} example_state).2
  = inr ().
Proof.
  by apply (@saveConfig_succeeds_iff reliable_fs (table_json ∅) example_state).
Defined.

Lemma saveConfig_frame_witness :
  let s := State (this example_state)
                 (World (<[ "other.txt" := "kept" ]> (files (env example_state))) [])
  in
  files (env (@saveConfig (failing_rename "EXDEV") (table_json ∅)
                {[ "b" := JNum 2 ]} s).1) !! "other.txt" = Some "kept".
Proof.
  intros s.
  destruct (@saveConfig_frame (failing_rename "EXDEV") (table_json ∅) s
              {[ "b" := JNum 2 ]} "other.txt") as (Hother & _); [done..|].
  exact Hother.
Defined.

Lemma saveConfig_leaves_temp_witness :
  files (env (@saveConfig (failing_rename "EXDEV") (table_json ∅)
                {[ "b" := JNum 2 ]} example_state).1) !! "ddns-config.json.tmp"
  = Some (render (JObj (<[ "a" := JNum 1 ]> {[ "b" := JNum 2 ]}))).
Proof.
  destruct (@saveConfig_leaves_temp (failing_rename "EXDEV") (table_json ∅)
              example_state {[ "b" := JNum 2 ]}
              {| fail_error := Error "EXDEV"; fail_partial := None |})
    as (Hrename & _).
  exact (Hrename eq_refl eq_refl).
Defined.

Lemma set_frame_witness :
  let s1 := (@set reliable_fs (table_json ∅) "zoneId" (JStr "z1")
               example_state).1 in
  config (this s1) = <[ "zoneId" := JStr "z1" ]> {[ "a" := JNum 1 ]} ∧
  (get "a" s1).2 = inr (JNum 1) ∧
  config (this (@set reliable_fs (table_json ∅) "__proto__" (JStr "z1")
                  example_state).1) = {[ "a" := JNum 1 ]}.
Proof.
  intros s1. split_and!.
  - destruct (@set_frame reliable_fs (table_json ∅) example_state
                "zoneId" (JStr "z1")) as (Hkey & _ & _).
    destruct (Hkey ltac:(done)) as (Hdoc & _). exact Hdoc.
  - destruct (@set_frame reliable_fs (table_json ∅) example_state
                "zoneId" (JStr "z1")) as (_ & Hother & _).
    destruct (Hother "a" ltac:(done)) as (_ & Hget). exact Hget.
  - destruct (@set_frame reliable_fs (table_json ∅) example_state
                "__proto__" (JStr "z1")) as (_ & _ & Hproto).
    exact (Hproto eq_refl eq_refl).
Defined.

(** The document after [set("zoneId", "z1")], as the double renders and
    parses it. *)
Lemma set_persist_reload_witness :
  let doc := <[ "zoneId" := JStr "z1" ]> {[ "a" := JNum 1 ]} in
  let json := table_json {[ render (JObj doc) := doc ]} in
  ∃ promise reloaded w,
    (@set reliable_fs json "zoneId" (JStr "z1") example_state).2 = inr promise ∧
    @constructor json example_path
      (env (promise (@set reliable_fs json "zoneId" (JStr "z1")
                       example_state).1).1) = (w, inr reloaded) ∧
    (@get "zoneId" (State reloaded w)).2 = inr (JStr "z1").
Proof.
  intros doc json.
  destruct (@set_persist_reload reliable_fs json example_state
              "zoneId" (JStr "z1") ltac:(done) eq_refl eq_refl eq_refl)
    as (promise & Hset & _ & _ & reloaded & w & Hload & _ & Hget).
  exists promise, reloaded, w. split_and!; [exact Hset|exact Hload|exact Hget].
Defined.

Lemma constructor_never_writes_witness :
  @constructor (table_json ∅) example_path (World {[ example_path := "{" ]} []) =
  (World {[ example_path := "{" ]}
         [Log "info" "Loading config from ddns-config.json"],
   inl (JsError "SyntaxError" "Unexpected token")).
Proof.
  destruct (@constructor_never_writes (table_json ∅) example_path
              (World {[ example_path := "{" ]} [])) as (_ & Hmalformed).
  exact (Hmalformed "{" (JsError "SyntaxError" "Unexpected token")
           eq_refl eq_refl).
Defined.

End more_manager_examples.

Section main_examples.
Import Cloudflare Config Main.

Lemma main_ip_failure_witness :
  let a := fresh_app ∅ in
  @main (mock []) reliable_fs (table_json ∅) example_client "@" a =
  (App [http_entry "GET: Fetching public IP address...";
        Called (AxiosGet primary_url); Called (AxiosGet secondary_url);
        Logged (Log "error" "Error: Network error")]
       (manager a) [],
   inr ()).
Proof.
  intros a.
  exact (@main_ip_failure (mock []) reliable_fs (table_json ∅)
           example_client "@" a (Error "Network error") eq_refl).
Defined.


Lemma main_record_missing_witness :
  let a := fresh_app {[ "zoneId" := JStr "z1" ]} in
  let net := mock [resolved (JStr "1.2.3.4"); resolved (payload true [])] in
  @main net reliable_fs (table_json ∅) example_client "@" a =
  (App [http_entry "GET: Fetching public IP address...";
        Called (AxiosGet primary_url);
        Logged (Log "info" "Current Public IP: 1.2.3.4");
        http_entry "GET: Fetching Record ID...";
        Called (records_request example_client "z1" "@");
        Logged (Log "error" "Error: DNS record not found. Please create it first.")]
       (manager a) [],
   inr ()).
Proof.
  intros a net.
  exact (@main_record_missing net reliable_fs (table_json ∅) example_client "@" a
           _ (JStr "1.2.3.4") (JStr "z1") _ JNull
           eq_refl eq_refl eq_refl eq_refl eq_refl eq_refl).
Defined.

End main_examples.
